(** * VoIP_sttest: the call state machine and the call registry

    A shallow embedding of [voip_sttest/_implement_call.py] (class [_Call])
    and of [qa_voip_py/phone.py] (class [Phone]), and the properties of the
    call state machine, of the teardown path and of the dispatcher stated
    over it.

    Conventions of the embedding.
    - [call_data] is a Python dict whose keys appear over time; every key
      that can be absent is an [option] field, and a subscript on an absent
      key raises [KeyError].
    - A method is a computation in the monad [M]: it reads and writes the
      object it is called on, emits the calls it makes on its collaborators
      (the SIP transport, the media wrapper) as a list of effects, and either
      returns or raises.  A raise keeps the writes and the effects made before
      it, as in Python.
    - Two threads share a call: the caller's and the one on which the
      transport invokes [Phone._callback].  A method runs without
      interleaving except where it blocks in [try_wait]; there the other
      thread runs, and what it does during each polling interval is an
      argument of the method.  The [time.sleep] of the grace period before
      a remote teardown is an effect only: it is slept on the transport's
      thread, and the caller's thread, which alone could run meanwhile,
      never writes the state.
    - Logging is left out. *)

From stdpp Require Import base strings list gmap.
From Stdlib Require Import ZArith.

Open Scope Z_scope.

(** ** Enumerations *)

Module CallState.
Inductive t := DIALING | RINGING | TRYING | ANSWERED | ENDED.
Definition eqb (a b : t) : bool :=
  match a, b with
  | DIALING, DIALING | RINGING, RINGING | TRYING, TRYING
  | ANSWERED, ANSWERED | ENDED, ENDED => true
  | _, _ => false
  end.
End CallState.

Module CallStopReason.
Inductive t := SIP_ERROR | BYE_FROM_PBX | BYE_FROM_LOCAL.
Definition eqb (a b : t) : bool :=
  match a, b with
  | SIP_ERROR, SIP_ERROR | BYE_FROM_PBX, BYE_FROM_PBX
  | BYE_FROM_LOCAL, BYE_FROM_LOCAL => true
  | _, _ => false
  end.
End CallStopReason.

(** [SIP/sip_factory.py] and [media/media.py] are not part of the sources.
    Of their enumerations the members that the two classes name are kept;
    [SIPStatus.OTHER] stands for every status that [Phone._callback] does
    not name. *)
Module SIPMessageType.
Inductive t := MESSAGE | RESPONSE.
Definition eqb (a b : t) : bool :=
  match a, b with
  | MESSAGE, MESSAGE | RESPONSE, RESPONSE => true
  | _, _ => false
  end.
End SIPMessageType.

Module SIPStatus.
Inductive t :=
| TRYING | OK | NOT_FOUND | SERVICE_UNAVAILABLE | UNAUTHORIZED
| PROXY_AUTHENTICATION_REQUIRED | OTHER (code : Z).
End SIPStatus.

Module TransmitType.
Inductive t := SENDRECV.
End TransmitType.

(** The parts of a [SIPMessage] that the two classes read:
    [request.type], [request.method], [request.status],
    [request.headers['Call-ID']], [request.headers['CSeq']['method']],
    [request.body['o']['id']] and the ports of the media lines
    [request.body['m'][i]['port']]. *)
Record SIPMessage := {
  msg_type : SIPMessageType.t;
  method : string;
  status : SIPStatus.t;
  headers_Call_ID : string;
  headers_CSeq_method : string;
  body_o_id : string;
  body_m_port : list Z
}.

(** ** Effects, exceptions and the monad *)

(** What a method does to its collaborators, in program order.  The last
    four constructors are bookkeeping: [poll_interval] is one polling
    interval slept inside [try_wait], [state_write] records a write of
    [call_data['state']] with the value it replaces, [calls_setitem] and
    [calls_pop] record the writes of [Phone.calls], and [other_thread] marks
    what the other thread did while this one was blocked. *)
Inductive effect :=
| send_invite (number : string) (media_port : Z) (sendtype : TransmitType.t)
    (available_payload : list string) (sess_id : option string)
    (challenge : option SIPMessage)
| send_ack (request : SIPMessage)
| send_bye (invite_request : SIPMessage)
| send_ok (request : SIPMessage)
| set_socket_connection (host : string) (port : Z)
| media_stop
| time_sleep (seconds : Z)
| poll_interval
| state_write (old new : option CallState.t)
| calls_setitem (call_id : string)
| calls_pop (call_id : string)
| other_thread (e : effect).

Inductive exn :=
| KeyError (key : string)
| IndexError
| AttributeError
| RuntimeError (msg : string)
| Exception (msg : string)
| WaitTimeout (message_on_error : string).

Inductive result (A : Type) :=
| Ok (a : A)
| Raise (e : exn).
Arguments Ok {A} a.
Arguments Raise {A} e.

Definition M (S A : Type) : Type := S → S * list effect * result A.

#[global] Instance M_ret {S} : MRet (M S) := λ A a s, (s, [], Ok a).

#[global] Instance M_bind {S} : MBind (M S) := λ A B f m s,
  match m s with
  | (s1, t1, Ok a) => let '(s2, t2, r) := f a s1 in (s2, t1 ++ t2, r)
  | (s1, t1, Raise e) => (s1, t1, Raise e)
  end.

Definition get {S} : M S S := λ s, (s, [], Ok s).
Definition modify {S} (f : S → S) : M S unit := λ s, (f s, [], Ok tt).
Definition emit {S} (e : effect) : M S unit := λ s, (s, [e], Ok tt).
Definition raise {S A} (e : exn) : M S A := λ s, (s, [], Raise e).

(** [d[key]] on a dict in which [key] may be absent. *)
Definition item {S A} (key : string) (v : option A) : M S A :=
  match v with
  | Some a => mret a
  | None => raise (KeyError key)
  end.

(** What the other thread does while this one sleeps: its writes are kept,
    its calls on the collaborators are marked, and an exception it raises
    surfaces in that thread, not in this one. *)
Definition concurrently {S} (m : M S unit) : M S unit := λ s,
  let '(s1, t1, _) := m s in (s1, other_thread <$> t1, Ok tt).

(** Exceptions are caught by nobody in the two classes; [attempt] is the
    thread going on after one: what was written and sent stays. *)
Definition attempt {S} (m : M S unit) : M S unit := λ s,
  let '(s1, t1, _) := m s in (s1, t1, Ok tt).

(** Reading a trace: the calls this thread made itself, the effect under
    the marks, and the writes of the state, whichever thread made them. *)
Fixpoint own (tr : list effect) : list effect :=
  match tr with
  | [] => []
  | other_thread _ :: tr => own tr
  | e :: tr => e :: own tr
  end.

Fixpoint unmark (e : effect) : effect :=
  match e with
  | other_thread e => unmark e
  | e => e
  end.

Fixpoint state_writes (tr : list effect)
  : list (option CallState.t * option CallState.t) :=
  match tr with
  | [] => []
  | e :: tr =>
      match unmark e with
      | state_write old new => (old, new) :: state_writes tr
      | _ => state_writes tr
      end
  end.

Definition is_send_bye (e : effect) : bool :=
  match unmark e with send_bye _ => true | _ => false end.
Definition is_send_invite (e : effect) : bool :=
  match unmark e with send_invite _ _ _ _ _ _ => true | _ => false end.
Definition is_connect (e : effect) : bool :=
  match unmark e with set_socket_connection _ _ => true | _ => false end.

Definition count (p : effect → bool) (tr : list effect) : nat :=
  length (List.filter p tr).

(** ** The waiter *)

(** Modelled from the spec: [helpers/waiter.py] ([try_wait]) is not part of
    the sources.  The spec (4.1): it polls the condition at a fixed short
    interval until it evaluates true or the timeout elapses; a condition
    that throws counts as not yet satisfied and is retried; when the
    timeout elapses without satisfaction it fails with the caller's message
    if raise-on-timeout was requested, and otherwise returns the last
    observed value.  [check] is the mode of the check:
    [check_result_eq_true] demands the literal [True], the default accepts
    what the condition returns once it does not throw.  [polls] is the
    number of polling intervals in the timeout, and [others] what the other
    thread does during each of them. *)
Fixpoint try_wait {S A} (awaitable : S → result A) (check : A → bool)
    (polls : nat) (others : list (M S unit)) (raise_after_time : bool)
    (message_on_error : string) : M S (option A) := λ s,
  let observed := match awaitable s with Ok a => Some a | Raise _ => None end in
  if from_option check false observed then (s, [], Ok observed)
  else
    match polls with
    | O =>
        if raise_after_time then (s, [], Raise (WaitTimeout message_on_error))
        else (s, [], Ok observed)
    | S n =>
        (emit poll_interval;;
         concurrently (default (mret tt) (head others));;
         try_wait awaitable check n (tail others) raise_after_time
           message_on_error) s
    end.

Definition check_result_eq_true : bool → bool := id.
Definition check_no_exception {A} : A → bool := λ _, true.

(** ** [_implement_call.py]: class [_Call] *)

Module Call.

(** [media_wrapper.available_codecs] and [media_wrapper.data['port']]. *)
Record MediaWrapper := {
  available_codecs : list string;
  data_port : Z
}.

Record pbx_info_t := { host : string; port : Z }.

(** The object: the keys of [call_data], and the attribute
    [bye_recv_delay], which exists only after [set_bye_recv_delay].
    [auth_sent] is only ever read with [.get] and only ever set to [True]:
    [false] is the absent key. *)
Record t := {
  available_payload : list string;
  media_port : Z;
  type : string;
  state : option CallState.t;
  sendtype : TransmitType.t;
  pbx_info : pbx_info_t;
  invite_request : option SIPMessage;
  call_id : option string;
  sess_id : option string;
  number : option string;
  stop_reason : option CallStopReason.t;
  error : option (string * SIPMessage);
  auth_sent : bool;
  bye_recv_delay : option Z
}.

Definition with_state (v : option CallState.t) (c : t) : t :=
  {| available_payload := available_payload c; media_port := media_port c;
     type := type c; state := v; sendtype := sendtype c;
     pbx_info := pbx_info c; invite_request := invite_request c;
     call_id := call_id c; sess_id := sess_id c; number := number c;
     stop_reason := stop_reason c; error := error c;
     auth_sent := auth_sent c; bye_recv_delay := bye_recv_delay c |}.

Definition with_stop_reason (v : option CallStopReason.t) (c : t) : t :=
  {| available_payload := available_payload c; media_port := media_port c;
     type := type c; state := state c; sendtype := sendtype c;
     pbx_info := pbx_info c; invite_request := invite_request c;
     call_id := call_id c; sess_id := sess_id c; number := number c;
     stop_reason := v; error := error c;
     auth_sent := auth_sent c; bye_recv_delay := bye_recv_delay c |}.

Definition with_error (v : option (string * SIPMessage)) (c : t) : t :=
  {| available_payload := available_payload c; media_port := media_port c;
     type := type c; state := state c; sendtype := sendtype c;
     pbx_info := pbx_info c; invite_request := invite_request c;
     call_id := call_id c; sess_id := sess_id c; number := number c;
     stop_reason := stop_reason c; error := v;
     auth_sent := auth_sent c; bye_recv_delay := bye_recv_delay c |}.

Definition with_auth_sent (v : bool) (c : t) : t :=
  {| available_payload := available_payload c; media_port := media_port c;
     type := type c; state := state c; sendtype := sendtype c;
     pbx_info := pbx_info c; invite_request := invite_request c;
     call_id := call_id c; sess_id := sess_id c; number := number c;
     stop_reason := stop_reason c; error := error c;
     auth_sent := v; bye_recv_delay := bye_recv_delay c |}.

Definition with_number (v : option string) (c : t) : t :=
  {| available_payload := available_payload c; media_port := media_port c;
     type := type c; state := state c; sendtype := sendtype c;
     pbx_info := pbx_info c; invite_request := invite_request c;
     call_id := call_id c; sess_id := sess_id c; number := v;
     stop_reason := stop_reason c; error := error c;
     auth_sent := auth_sent c; bye_recv_delay := bye_recv_delay c |}.

(** [call_data.update({'invite_request': .., 'call_id': .., 'sess_id': ..})] *)
Definition with_invite (request : SIPMessage) (c : t) : t :=
  {| available_payload := available_payload c; media_port := media_port c;
     type := type c; state := state c; sendtype := sendtype c;
     pbx_info := pbx_info c; invite_request := Some request;
     call_id := Some (headers_Call_ID request);
     sess_id := Some (body_o_id request); number := number c;
     stop_reason := stop_reason c; error := error c;
     auth_sent := auth_sent c; bye_recv_delay := bye_recv_delay c |}.


(** The messages of the exceptions, as the source has them. *)
Definition msg_no_ok_bye : string :=
  "Не получили 200 OK (BYE) от АТС при завершении звонка".
Definition msg_stop_reason : string :=
  "При остановке звонка по инициативе абонента А, должна быть указана корректная причина остановки.".
Definition msg_unknown_caller : string := "Unknown _Call._stop() caller".
Definition msg_401_twice : string :=
  "Не смогли авторизовать звонок, дважды получен 401".
Definition msg_ok_state : string :=
  "Получили 200 OK, но статус звонка не является DIALING/ANSWERED".
Definition msg_new_call : string :=
  "Для оригинации нового звонка используй инстанс *Phone".

(** Truth value of [call_data['state']] and of [call_data.get('call_id')]:
    [None] and the empty string are false. *)
Definition truthy_state (v : option CallState.t) : bool :=
  match v with Some _ => true | None => false end.
Definition truthy_str (v : option string) : bool :=
  match v with Some s => negb (String.eqb s "") | None => false end.

(** [call_data['state'] == st] and [call_data.get('stop_reason') == r]: an
    unset value equals no member. *)
Definition state_is (v : option CallState.t) (st : CallState.t) : bool :=
  match v with Some x => CallState.eqb x st | None => false end.
Definition reason_is (v : option CallStopReason.t) (r : CallStopReason.t)
  : bool :=
  match v with Some x => CallStopReason.eqb x r | None => false end.

(** [self.CALL_TYPE] is not defined in the class: it is left to the
    subclass, and is an argument here. *)
Definition __init__ (CALL_TYPE : string) (pbx : pbx_info_t)
    (media_wrapper : MediaWrapper) : t :=
  {| available_payload := available_codecs media_wrapper;
     media_port := data_port media_wrapper;
     type := CALL_TYPE;
     state := None;
     sendtype := TransmitType.SENDRECV;
     pbx_info := pbx;
     invite_request := None; call_id := None; sess_id := None;
     number := None; stop_reason := None; error := None;
     auth_sent := false; bye_recv_delay := None |}.

Definition _parse_invite (request : SIPMessage) : M t unit :=
  modify (with_invite request).

Definition _stop_media : M t unit := emit media_stop.

Definition _set_state (st : CallState.t) : M t unit :=
  self ← get;
  emit (state_write (state self) (Some st));;
  modify (with_state (Some st)).


Section Methods.

(** Number of polling intervals of [try_wait] in one unit of [wait_time]. *)
Variable polls_per_unit : nat.

Definition polls_in (wait_time : Z) : nat :=
  (Z.to_nat wait_time * polls_per_unit)%nat.

(** [others]: what the other thread does during each polling interval of
    the wait for the answer to BYE. *)
Definition _stop (others : list (M t unit)) : M t unit :=
  self ← get;
  if truthy_state (state self)
     && negb (state_is (state self) CallState.ENDED) then
    reason ← item "stop_reason" (stop_reason self);
    if CallStopReason.eqb reason CallStopReason.BYE_FROM_PBX then
      (match bye_recv_delay self with
       | Some delay => emit (time_sleep delay)
       | None => mret tt
       end);;
      _stop_media;;
      _set_state CallState.ENDED
    else if state_is (state self) CallState.TRYING
            || state_is (state self) CallState.ANSWERED then
      invite ← item "invite_request" (invite_request self);
      emit (send_bye invite);;
      try_wait (λ self, Ok (state_is (state self) CallState.ENDED))
        check_result_eq_true (polls_in 5) others true msg_no_ok_bye;;
      _stop_media;;
      self ← get;
      if negb (reason_is (stop_reason self) CallStopReason.BYE_FROM_LOCAL)
      then raise (Exception msg_stop_reason)
      else mret tt
    else raise (RuntimeError msg_unknown_caller)
  else mret tt.

Definition _handle_trying (request : SIPMessage) : M t unit :=
  _set_state CallState.TRYING.

Definition _handle_unauthorized (request : SIPMessage) : M t unit :=
  self ← get;
  if negb (auth_sent self) then
    emit (send_ack request);;
    num ← item "number" (number self);
    sess ← item "sess_id" (sess_id self);
    emit (send_invite num (media_port self) (sendtype self)
            (available_payload self) (Some sess) (Some request));;
    modify (with_auth_sent true)
  else raise (RuntimeError msg_401_twice).

Definition _handle_not_found (others : list (M t unit))
    (request : SIPMessage) : M t unit :=
  modify (with_stop_reason (Some CallStopReason.SIP_ERROR));;
  modify (with_error (Some ("not found", request)));;
  emit (send_ack request);;
  _stop others.

Definition _handle_unavailable (others : list (M t unit))
    (request : SIPMessage) : M t unit :=
  modify (with_stop_reason (Some CallStopReason.SIP_ERROR));;
  modify (with_error (Some ("unavailable", request)));;
  emit (send_ack request);;
  _stop others.

Definition _handle_OK (request : SIPMessage) : M t unit :=
  self ← get;
  if state_is (state self) CallState.TRYING then
    _set_state CallState.ANSWERED;;
    remote_port ← (match head (body_m_port request) with
                   | Some p => mret p
                   | None => raise IndexError
                   end);
    emit (set_socket_connection (host (pbx_info self)) remote_port);;
    emit (send_ack request)
  else if state_is (state self) CallState.ANSWERED
          && String.eqb (headers_CSeq_method request) "BYE" then
    _set_state CallState.ENDED
  else if state_is (state self) CallState.ANSWERED
          && String.eqb (headers_CSeq_method request) "INVITE" then
    mret tt
  else raise (Exception msg_ok_state).

Definition _handle_bye (others : list (M t unit))
    (request : SIPMessage) : M t unit :=
  emit (send_ok request);;
  modify (with_stop_reason (Some CallStopReason.BYE_FROM_PBX));;
  _stop others.

(** [invite] is what [sip_manager.send_invite] returns: the request it
    built and sent, with the Call-ID it chose. *)
Definition _new_call (num : string) (invite : SIPMessage) : M t unit :=
  self ← get;
  if negb (truthy_str (call_id self)) then
    modify (with_number (Some num));;
    emit (send_invite num (media_port self) (sendtype self)
            (available_payload self) None None);;
    _parse_invite invite
  else raise (Exception msg_new_call).

Definition _hangup (others : list (M t unit)) : M t unit :=
  self ← get;
  if negb (state_is (state self) CallState.ENDED) then
    modify (with_stop_reason (Some CallStopReason.BYE_FROM_LOCAL));;
    _stop others
  else mret tt.

End Methods.

End Call.

(** ** [phone.py]: class [Phone] *)

Module Phone.

(** The fields the modelled methods read.  [CALL_TYPE] is that of the call
    wrapper class the phone was built with. *)
Record t := {
  pbx_host : string;
  pbx_port : Z;
  dial_prefix : string;
  CALL_TYPE : string;
  calls : gmap string Call.t
}.

Definition with_calls (v : gmap string Call.t) (p : t) : t :=
  {| pbx_host := pbx_host p; pbx_port := pbx_port p;
     dial_prefix := dial_prefix p; CALL_TYPE := CALL_TYPE p; calls := v |}.

Definition msg_no_call (call_id : string) : string :=
  "Не смогли получить инстанс звонка для Call-ID " +:+ call_id.
Definition msg_unknown_message (method : string) : string :=
  "Unknown SIP message: " +:+ method.
Definition msg_unknown_status : string := "Unknown sip status".

(** A method called on a call object that is not (yet) in [calls]: the
    object is local to the caller. *)
Definition on_new {A} (call : Call.t) (m : M Call.t A) : M t Call.t := λ self,
  match m call with
  | (call1, tr, Ok _) => (self, tr, Ok call1)
  | (_, tr, Raise e) => (self, tr, Raise e)
  end.

(** A method called on the object that [calls] holds under [call_id]: the
    object is shared, so its writes are seen through [calls]. *)
Definition on_call {A} (call_id : string) (m : M Call.t A) : M t A := λ self,
  match calls self !! call_id with
  | Some call =>
      let '(call1, tr, r) := m call in
      (with_calls (<[call_id := call1]> (calls self)) self, tr, r)
  | None => (self, [], Raise (KeyError call_id))
  end.

(** [self.calls[call_id]], the condition of the lookup in [_callback]. *)
Definition calls_getitem (call_id : string) (self : t) : result Call.t :=
  match calls self !! call_id with
  | Some call => Ok call
  | None => Raise (KeyError call_id)
  end.

Section Methods.

Variable polls_per_unit : nat.

Definition _del_call (call_id : string) : M t unit :=
  self ← get;
  _ ← item call_id (calls self !! call_id);
  emit (calls_pop call_id);;
  modify (λ self, with_calls (delete call_id (calls self)) self).

(** The routing of [_callback] (lines 72-92), on the call it found.
    [others]: what the other thread does while a handler waits. *)
Definition route (others : list (M Call.t unit)) (request : SIPMessage)
  : M Call.t unit :=
  if SIPMessageType.eqb (msg_type request) SIPMessageType.MESSAGE then
    if String.eqb (method request) "BYE" then
      Call._handle_bye polls_per_unit others request
    else raise (RuntimeError (msg_unknown_message (method request)))
  else
    match status request with
    | SIPStatus.TRYING => Call._handle_trying request
    | SIPStatus.OK => Call._handle_OK request
    | SIPStatus.NOT_FOUND => Call._handle_not_found polls_per_unit others request
    | SIPStatus.SERVICE_UNAVAILABLE =>
        Call._handle_unavailable polls_per_unit others request
    | SIPStatus.UNAUTHORIZED => Call._handle_unauthorized request
    | SIPStatus.PROXY_AUTHENTICATION_REQUIRED =>
        Call._handle_unauthorized request
    | SIPStatus.OTHER _ => raise (RuntimeError msg_unknown_status)
    end.

(** [registering]: what the caller's thread does to the phone during each
    polling interval of the lookup. *)
Definition _callback (registering : list (M t unit))
    (others : list (M Call.t unit)) (request : SIPMessage) : M t unit :=
  let call_id := headers_Call_ID request in
  requested_call ←
    try_wait (calls_getitem call_id)
      check_no_exception (Call.polls_in polls_per_unit 2) registering true
      (msg_no_call call_id);
  match requested_call with
  | Some _ => on_call call_id (route others request)
  | None => raise AttributeError
  end.

(** [media_wrapper] is the wrapper built on the socket that
    [get_available_socket] returned, [invite] what
    [sip_manager.send_invite] returns. *)
Definition call (num : string) (media_wrapper : Call.MediaWrapper)
    (invite : SIPMessage) : M t Call.t :=
  self ← get;
  new_call ←
    on_new
      (Call.__init__ (CALL_TYPE self)
         {| Call.host := pbx_host self; Call.port := pbx_port self |}
         media_wrapper)
      (Call._new_call (dial_prefix self +:+ num) invite);
  call_id ← item "call_id" (Call.call_id new_call);
  emit (calls_setitem call_id);;
  modify (λ self, with_calls (<[call_id := new_call]> (calls self)) self);;
  mret new_call.

Definition _stop_call (others : list (M Call.t unit)) (call_id : string)
  : M t unit :=
  self ← get;
  match calls self !! call_id with
  | Some _ =>
      on_call call_id (Call._hangup polls_per_unit others);;
      _del_call call_id
  | None => mret tt
  end.

Definition hangup (others : list (M Call.t unit)) (call : Call.t) : M t unit :=
  call_id ← item "call_id" (Call.call_id call);
  _stop_call others call_id.

(** What the transport's thread does to a call during one polling interval
    of a wait of the caller's thread: it routes the events of the batch one
    after the other.  While one of its own handlers waits, nothing else is
    delivered. *)
Definition deliver (batch : list SIPMessage) : M Call.t unit :=
  foldr (λ request rest, attempt (route [] request);; rest) (mret tt) batch.

Definition schedule (during : list (list SIPMessage)) : list (M Call.t unit) :=
  deliver <$> during.

(** A history of one call: events routed to it, and hang-ups by the caller,
    each with the events delivered while it waits. *)
Inductive operation :=
| event (request : SIPMessage) (during : list (list SIPMessage))
| hang_up (during : list (list SIPMessage)).

Definition perform (o : operation) : M Call.t unit :=
  attempt
    match o with
    | event request during => route (schedule during) request
    | hang_up during => Call._hangup polls_per_unit (schedule during)
    end.

Definition history (ops : list operation) : M Call.t unit :=
  foldr (λ o rest, perform o;; rest) (mret tt) ops.

End Methods.

End Phone.

(** ** Reading the state machine *)

(** The writes of the state that the methods make on a placed call: to
    Trying from whatever the state is, from Trying to Answered, and from
    Trying or Answered to Ended. *)
Definition transition_allowed
    (w : option CallState.t * option CallState.t) : bool :=
  match w with
  | (None, Some CallState.TRYING)
  | (Some CallState.TRYING, Some CallState.TRYING)
  | (Some CallState.ANSWERED, Some CallState.TRYING)
  | (Some CallState.ENDED, Some CallState.TRYING) => true
  | (Some CallState.TRYING, Some CallState.ANSWERED) => true
  | (Some CallState.TRYING, Some CallState.ENDED) => true
  | (Some CallState.ANSWERED, Some CallState.ENDED) => true
  | _ => false
  end.

(** The transitions of the specification, to compare with:
    Dialing → Trying → Answered → Ended, and Dialing or Trying → Ended.
    Dialing is the state of a call that was placed and has seen no event:
    the unset state of the code, or its member [DIALING]. *)
Definition is_dialing (v : option CallState.t) : bool :=
  match v with None | Some CallState.DIALING => true | _ => false end.

Definition spec_transition
    (w : option CallState.t * option CallState.t) : bool :=
  match w with
  | (v, Some CallState.TRYING) => is_dialing v
  | (Some CallState.TRYING, Some CallState.ANSWERED) => true
  | (Some CallState.ANSWERED, Some CallState.ENDED) => true
  | (Some CallState.TRYING, Some CallState.ENDED) => true
  | (v, Some CallState.ENDED) => is_dialing v
  | _ => false
  end.

(** No method assigns [DIALING] or [RINGING]; a call that does not hold one
    of them never will. *)
Definition tame (c : Call.t) : Prop :=
  Call.state c ≠ Some CallState.DIALING ∧ Call.state c ≠ Some CallState.RINGING.

Definition steady {A} (m : M Call.t A) : Prop :=
  ∀ c, tame c →
    tame (m c).1.1 ∧
    Forall (λ w, transition_allowed w = true) (state_writes (m c).1.2).

(** The keys that [_new_call] sets; the handlers and [_hangup] read them
    and never write them. *)
Definition same_placement (c c' : Call.t) : Prop :=
  Call.number c' = Call.number c ∧ Call.sess_id c' = Call.sess_id c ∧
  Call.invite_request c' = Call.invite_request c ∧
  Call.call_id c' = Call.call_id c.

Definition keeps_placement {A} (m : M Call.t A) : Prop :=
  ∀ c, same_placement c (m c).1.1.

(** What a waiting thread shares with the other one, as the other one
    leaves it after the first [k] polling intervals of the wait. *)
Fixpoint after_intervals {S} (others : list (M S unit)) (k : nat) (s : S) : S :=
  match k with
  | O => s
  | S k =>
      after_intervals (tail others) k
        (concurrently (default (mret tt) (head others)) s).1.1
  end.

(** The wait of [_stop] for the answer to BYE. *)
Definition wait_for_ended (polls : nat) (others : list (M Call.t unit))
  : M Call.t (option bool) :=
  try_wait (λ self, Ok (Call.state_is (Call.state self) CallState.ENDED))
    check_result_eq_true polls others true Call.msg_no_ok_bye.

(** Position of the first effect of a kind in a trace. *)
Fixpoint first_index (p : effect → bool) (tr : list effect) : option nat :=
  match tr with
  | [] => None
  | e :: tr => if p e then Some O else S <$> first_index p tr
  end.

Definition is_calls_setitem (e : effect) : bool :=
  match e with calls_setitem _ => true | _ => false end.

(** "The record is inserted before the invite is sent", on a trace. *)
Definition inserted_before_invite (tr : list effect) : bool :=
  match first_index is_calls_setitem tr, first_index is_send_invite tr with
  | Some i, Some j => Nat.ltb i j
  | _, _ => false
  end.

(** ** A worked scenario *)

Module Scenario.

Definition invite : SIPMessage :=
  {| msg_type := SIPMessageType.MESSAGE; method := "INVITE";
     status := SIPStatus.OTHER 0; headers_Call_ID := "call-1";
     headers_CSeq_method := "INVITE"; body_o_id := "4242";
     body_m_port := [5004] |}.

Definition response (st : SIPStatus.t) (cseq : string) (ports : list Z)
  : SIPMessage :=
  {| msg_type := SIPMessageType.RESPONSE; method := "";
     status := st; headers_Call_ID := "call-1";
     headers_CSeq_method := cseq; body_o_id := "77";
     body_m_port := ports |}.

Definition trying : SIPMessage := response SIPStatus.TRYING "INVITE" [].
Definition ok_invite : SIPMessage := response SIPStatus.OK "INVITE" [30000].
Definition ok_bye : SIPMessage := response SIPStatus.OK "BYE" [].
Definition not_found : SIPMessage := response SIPStatus.NOT_FOUND "INVITE" [].
Definition unauthorized : SIPMessage :=
  response SIPStatus.UNAUTHORIZED "INVITE" [].

Definition bye : SIPMessage :=
  {| msg_type := SIPMessageType.MESSAGE; method := "BYE";
     status := SIPStatus.OTHER 0; headers_Call_ID := "call-1";
     headers_CSeq_method := "BYE"; body_o_id := "";
     body_m_port := [] |}.

Definition media : Call.MediaWrapper :=
  {| Call.available_codecs := ["PCMA"]; Call.data_port := 5004 |}.

Definition phone : Phone.t :=
  {| Phone.pbx_host := "pbx"; Phone.pbx_port := 5060;
     Phone.dial_prefix := ""; Phone.CALL_TYPE := "outgoing";
     Phone.calls := ∅ |}.

(** The call just placed, then after "trying", then after the answer. *)
Definition dialing : Call.t :=
  (Call._new_call "1000" invite
     (Call.__init__ "outgoing" {| Call.host := "pbx"; Call.port := 5060 |}
        media)).1.1.

Definition ringing : Call.t := (Call._handle_trying trying dialing).1.1.

Definition answered : Call.t := (Call._handle_OK ok_invite ringing).1.1.

(** One polling interval per unit of time: a wait of 5 polls five times. *)
Definition polls_per_unit : nat := 1.

(** The race of [Phone.call] with the first response: the caller's thread
    has sent the invite and writes [calls] during the second polling
    interval of the dispatcher's lookup. *)
Definition registering : list (M Phone.t unit) :=
  [mret tt;
   modify (λ self,
     Phone.with_calls (<["call-1" := dialing]> (Phone.calls self)) self)].

End Scenario.

(** ** [_implement_call.py]: the operations of the caller *)

(** The calls on the media wrapper with which [send_audio], [send_dtmf] and
    [listen] end.  [media/media.py] is not part of the sources: what the
    wrapper does with them is not modelled, and the value of one of these
    methods is the call it delegates. *)
Inductive media_call :=
| media_send_audio (file_path : string)
| media_send_dtmf (number : string)
| media_listen (ivr_message : string).

Module CallApi.

Definition msg_not_answered : string := "Не дозвонились до АТС".
Definition msg_no_drop : string :=
  "Звонок должен быть сброшен со стороны АТС".

(** [__log] formats [call_data["call_id"]] into the line it logs: the
    logging is left out, the subscript is not. *)
Definition __log : M Call.t unit :=
  self ← get;
  _ ← item "call_id" (Call.call_id self);
  mret tt.

(** [lambda: self.call_data['stop_reason'] == CallStopReason.BYE_FROM_PBX] *)
Definition dropped_by_pbx (self : Call.t) : result bool :=
  match Call.stop_reason self with
  | Some r => Ok (CallStopReason.eqb r CallStopReason.BYE_FROM_PBX)
  | None => Raise (KeyError "stop_reason")
  end.

Section Methods.

Variable polls_per_unit : nat.

(** The default of [wait_time] in [try_wait], which
    [_check_leg_A_answered] does not pass. *)
Variable default_wait_time : Z.

Definition _check_leg_A_answered (others : list (M Call.t unit))
  : M Call.t unit :=
  try_wait (λ self, Ok (Call.state_is (Call.state self) CallState.ANSWERED))
    check_result_eq_true (Call.polls_in polls_per_unit default_wait_time)
    others true msg_not_answered;;
  mret tt.

Definition send_audio (others : list (M Call.t unit)) (file_path : string)
  : M Call.t media_call :=
  __log;;
  _check_leg_A_answered others;;
  mret (media_send_audio file_path).

Definition send_dtmf (others : list (M Call.t unit)) (number : string)
  : M Call.t media_call :=
  __log;;
  _check_leg_A_answered others;;
  mret (media_send_dtmf number).

Definition listen (others : list (M Call.t unit)) (ivr_message : string)
  : M Call.t media_call :=
  __log;;
  _check_leg_A_answered others;;
  mret (media_listen ivr_message).

Definition in_call (time_in : Z) : M Call.t unit :=
  __log;;
  emit (time_sleep time_in).

Definition check_pbx_drop_call (others : list (M Call.t unit)) (wait : Z)
    (raise_after_time : bool) : M Call.t unit :=
  try_wait dropped_by_pbx check_result_eq_true
    (Call.polls_in polls_per_unit wait) others raise_after_time msg_no_drop;;
  mret tt.

End Methods.

End CallApi.

(** ** [phone.py]: registration and shutdown *)

Module PhoneStatus.
Inductive t := INACTIVE | REGISTERING | REGISTERED | DEREGISTER | FAILED.
End PhoneStatus.

Module PhoneSession.

(** The phone with its [_status].  Its effects are those of its calls, the
    writes of [_status], and [_sip.start()] and [_sip.stop()]. *)
Record t := {
  phone : Phone.t;
  _status : option PhoneStatus.t
}.

Inductive phone_effect :=
| of_calls (e : effect)
| status_write (v : PhoneStatus.t)
| sip_start
| sip_stop.

Definition status (self : t) : option PhoneStatus.t := _status self.

Definition start (self : t) : t * list phone_effect :=
  ({| phone := phone self; _status := Some PhoneStatus.REGISTERED |},
   [status_write PhoneStatus.REGISTERING; sip_start;
    status_write PhoneStatus.REGISTERED]).

Section Methods.

Variable polls_per_unit : nat.

(** [for call_id in list(self.calls.keys()): self._stop_call(call_id)].
    [keys] is [list(self.calls.keys())]: the keys in the order of their
    insertion, which the finite map does not record.  [others_of call_id]:
    what the other thread does while the hang-up of that call waits. *)
Definition stop_calls (others_of : string → list (M Call.t unit))
    (keys : list string) : M Phone.t unit :=
  foldr (λ call_id rest,
           Phone._stop_call polls_per_unit (others_of call_id) call_id;; rest)
    (mret tt) keys.

Definition stop (others_of : string → list (M Call.t unit))
    (keys : list string) (self : t) : t * list phone_effect * result unit :=
  let '(p1, tr, r) :=
    (if decide (Phone.calls (phone self) = ∅) then mret tt
     else stop_calls others_of keys) (phone self) in
  match r with
  | Ok _ =>
      ({| phone := p1; _status := Some PhoneStatus.INACTIVE |},
       (of_calls <$> tr)
       ++ [status_write PhoneStatus.DEREGISTER; sip_stop;
           status_write PhoneStatus.INACTIVE],
       Ok tt)
  | Raise e =>
      ({| phone := p1; _status := _status self |}, of_calls <$> tr, Raise e)
  end.

(** [__del__] *)
Definition __del__ := stop.

End Methods.

End PhoneSession.

(** ** [helpers/network.py] *)

Module Network.







End Network.

(** ** Invariants of a call *)

Definition preserves (I : Call.t → Prop) {A} (m : M Call.t A) : Prop :=
  ∀ c, I c → I (m c).1.1.

(** The reason is not the one that only [_hangup] writes. *)
Definition not_by_caller (c : Call.t) : Prop :=
  Call.stop_reason c ≠ Some CallStopReason.BYE_FROM_LOCAL.

(** What a call offers in its invites: the number, the media port, the
    direction, the codecs and the session id. *)
Definition offers (num : string) (media_port : Z) (sendtype : TransmitType.t)
    (payload : list string) (sess : string) (c : Call.t) : Prop :=
  Call.number c = Some num ∧ Call.media_port c = media_port
  ∧ Call.sendtype c = sendtype ∧ Call.available_payload c = payload
  ∧ Call.sess_id c = Some sess.

(** Every entry of [calls] is under the Call-ID of its call: the key that
    [Phone.hangup] reads off the call object is the key of that call. *)
Definition consistent (p : Phone.t) : Prop :=
  ∀ id c, Phone.calls p !! id = Some c → Call.call_id c = Some id.

Definition is_media_stop (e : effect) : bool :=
  match unmark e with media_stop => true | _ => false end.

(** ** Running a method *)

Ltac mrun :=
  cbv beta iota zeta delta
    [mbind M_bind mret M_ret get modify emit raise item attempt
     Call._set_state Call._stop_media Call._parse_invite];
  cbn.

Lemma bind_run {S A B} (m : M S A) (f : A → M S B) (s : S) :
  (m ≫= f) s =
  match m s with
  | (s1, t1, Ok a) => let '(s2, t2, r) := f a s1 in (s2, t1 ++ t2, r)
  | (s1, t1, Raise e) => (s1, t1, Raise e)
  end.
Proof. reflexivity. Qed.

Lemma own_app (t1 t2 : list effect) : own (t1 ++ t2) = own t1 ++ own t2.
Proof.
  induction t1 as [|e t1 IH]; [done|].
  destruct e; simpl; rewrite ?IH; done.
Qed.

Lemma own_other_thread (tr : list effect) : own (other_thread <$> tr) = [].
Proof. induction tr; simpl; auto. Qed.

Lemma state_writes_app (t1 t2 : list effect) :
  state_writes (t1 ++ t2) = state_writes t1 ++ state_writes t2.
Proof.
  induction t1 as [|e t1 IH]; [done|].
  simpl. destruct (unmark e); rewrite ?IH; done.
Qed.

Lemma state_writes_other_thread (tr : list effect) :
  state_writes (other_thread <$> tr) = state_writes tr.
Proof.
  induction tr as [|e tr IH]; [done|].
  rewrite fmap_cons. simpl. rewrite IH. done.
Qed.

(** ** Success responses *)

(** C5. A success response handled while the state is Ended or Dialing
    (the unset state of a call just placed, or the member DIALING) raises
    the sequence error and leaves the call and the collaborators untouched;
    whenever the handler returns without raising, the state was Trying, or
    Answered with the response correlating to BYE or to INVITE. *)
Theorem handle_OK_sequence (request : SIPMessage) (c : Call.t) :
  (Call.state c = Some CallState.ENDED ∨ Call.state c = Some CallState.DIALING
   ∨ Call.state c = None →
   Call._handle_OK request c = (c, [], Raise (Exception Call.msg_ok_state)))
  ∧ (∀ c' tr, Call._handle_OK request c = (c', tr, Ok tt) →
     Call.state c = Some CallState.TRYING
     ∨ (Call.state c = Some CallState.ANSWERED
        ∧ (headers_CSeq_method request = "BYE"
           ∨ headers_CSeq_method request = "INVITE"))).
Proof.
  split.
  - intros H. unfold Call._handle_OK.
    destruct c as [ap mp ty st sd pi ir ci si nu sr er au bd]; simpl in H.
    destruct H as [-> | [-> | ->]]; reflexivity.
  - intros c' tr. unfold Call._handle_OK.
    destruct c as [ap mp ty st sd pi ir ci si nu sr er au bd]; simpl.
    destruct st as [[]|]; mrun; try discriminate; auto.
    destruct (String.eqb_spec (headers_CSeq_method request) "BYE"); auto.
    destruct (String.eqb_spec (headers_CSeq_method request) "INVITE"); auto.
    discriminate.
Qed.

Lemma handle_OK_sequence_witness :
  Call._handle_OK Scenario.ok_invite Scenario.dialing
  = (Scenario.dialing, [], Raise (Exception Call.msg_ok_state))
  ∧ (Call.state Scenario.ringing = Some CallState.TRYING
     ∨ (Call.state Scenario.ringing = Some CallState.ANSWERED
        ∧ (headers_CSeq_method Scenario.ok_invite = "BYE"
           ∨ headers_CSeq_method Scenario.ok_invite = "INVITE"))).
Proof.
  split.
  - apply (proj1 (handle_OK_sequence Scenario.ok_invite Scenario.dialing)).
    right; right; reflexivity.
  - apply (proj2 (handle_OK_sequence Scenario.ok_invite Scenario.ringing)
             Scenario.answered
             [state_write (Some CallState.TRYING) (Some CallState.ANSWERED);
              set_socket_connection "pbx" 30000; send_ack Scenario.ok_invite]).
    reflexivity.
Defined.

(** ** Facts about the waiter *)

Lemma try_wait_unsatisfied {S A} (awaitable : S → result A) (check : A → bool)
    (n : nat) (others : list (M S unit)) (raise_after_time : bool)
    (msg : string) (s : S) :
  from_option check false
    (match awaitable s with Ok a => Some a | Raise _ => None end) = false →
  try_wait awaitable check (Datatypes.S n) others raise_after_time msg s =
  let '(s1, t1, _) := default (mret tt) (head others) s in
  let '(s2, t2, r) :=
    try_wait awaitable check n (tail others) raise_after_time msg s1 in
  (s2, poll_interval :: (other_thread <$> t1) ++ t2, r).
Proof.
  intros H. simpl. rewrite H. rewrite bind_run. unfold emit.
  rewrite bind_run. unfold concurrently.
  destruct (default (mret ()) (head others) s) as [[s1 t1] r1].
  destruct (try_wait awaitable check n (tail others) raise_after_time msg s1)
    as [[s2 t2] r2].
  reflexivity.
Qed.

Lemma try_wait_satisfied {S A} (awaitable : S → result A) (check : A → bool)
    (n : nat) (others : list (M S unit)) (raise_after_time : bool)
    (msg : string) (s : S) (a : A) :
  awaitable s = Ok a → check a = true →
  try_wait awaitable check n others raise_after_time msg s = (s, [], Ok (Some a)).
Proof. intros H1 H2. destruct n; simpl; rewrite H1; simpl; rewrite H2; done. Qed.

(** ** Teardown *)

Lemma state_is_ended (v : option CallState.t) :
  Call.state_is v CallState.ENDED = true ↔ v = Some CallState.ENDED.
Proof. destruct v as [[]|]; simpl; split; congruence. Qed.

(** The wait for the answer to BYE: this thread only sleeps, at most
    [polls] intervals; it ends early exactly when the state is seen Ended,
    and raises after the whole of them otherwise. *)
Lemma wait_for_ended_outcome (polls : nat) (others : list (M Call.t unit))
    (c : Call.t) :
  ∃ c' tr k,
    own tr = repeat poll_interval k ∧ (k ≤ polls)%nat ∧
    ((wait_for_ended polls others c = (c', tr, Ok (Some true))
      ∧ Call.state c' = Some CallState.ENDED)
     ∨ (wait_for_ended polls others c
        = (c', tr, Raise (WaitTimeout Call.msg_no_ok_bye))
        ∧ k = polls ∧ Call.state c' ≠ Some CallState.ENDED)).
Proof.
  revert others c. induction polls as [|n IH]; intros others c;
    destruct (Call.state_is (Call.state c) CallState.ENDED) eqn:E.
  - exists c, [], O. repeat split; auto. left. split.
    + unfold wait_for_ended. apply try_wait_satisfied; [by rewrite E | done].
    + by apply state_is_ended.
  - exists c, [], O. repeat split; auto. right. repeat split.
    + unfold wait_for_ended. simpl. rewrite E. done.
    + intros H. apply state_is_ended in H. congruence.
  - exists c, [], O. repeat split; auto with lia. left. split.
    + unfold wait_for_ended. apply try_wait_satisfied; [by rewrite E | done].
    + by apply state_is_ended.
  - unfold wait_for_ended. rewrite try_wait_unsatisfied by (simpl; by rewrite E).
    destruct (default (mret ()) (head others) c) as [[c1 t1] r1].
    destruct (IH (tail others) c1) as (c' & tr & k & Hown & Hk & Hres).
    unfold wait_for_ended in Hres.
    exists c', (poll_interval :: (other_thread <$> t1) ++ tr), (S k).
    split; [|split; [lia|]].
    + simpl. rewrite own_app, own_other_thread, Hown. done.
    + destruct Hres as [[-> Hst] | (-> & -> & Hst)]; [left | right]; auto.
Qed.

Lemma count_app (p : effect → bool) (t1 t2 : list effect) :
  count p (t1 ++ t2) = (count p t1 + count p t2)%nat.
Proof. unfold count. rewrite List.filter_app, length_app. done. Qed.

Lemma count_cons (p : effect → bool) (e : effect) (tr : list effect) :
  count p (e :: tr) = ((if p e then 1 else 0) + count p tr)%nat.
Proof. unfold count. simpl. destruct (p e); done. Qed.

Lemma count_poll_intervals (p : effect → bool) (k : nat) :
  p poll_interval = false → count p (repeat poll_interval k) = O.
Proof.
  intros H. unfold count. induction k as [|k IH]; [done|].
  simpl. rewrite H. exact IH.
Qed.

Lemma try_wait_alone {S A} (awaitable : S → result A) (check : A → bool)
    (n : nat) (raise_after_time : bool) (msg : string) (s : S) :
  (try_wait awaitable check n [] raise_after_time msg s).1.1 = s.
Proof.
  induction n as [|n IH]; simpl;
    destruct (from_option check false _) eqn:E; try done.
  - destruct raise_after_time; done.
  - rewrite bind_run. unfold emit. rewrite bind_run. simpl.
    destruct (try_wait awaitable check n [] raise_after_time msg s)
      as [[s2 t2] r2].
    simpl in IH. subst. done.
Qed.

Section Teardown.

Variable polls_per_unit : nat.

(** The local branch of [_stop], with the wait kept whole. *)
Lemma stop_local_run (others : list (M Call.t unit)) (c : Call.t)
    (r : CallStopReason.t) (invite : SIPMessage) :
  Call.state c = Some CallState.TRYING ∨ Call.state c = Some CallState.ANSWERED →
  Call.stop_reason c = Some r → r ≠ CallStopReason.BYE_FROM_PBX →
  Call.invite_request c = Some invite →
  Call._stop polls_per_unit others c =
  let '(c1, t1, r1) :=
    wait_for_ended (Call.polls_in polls_per_unit 5) others c in
  match r1 with
  | Ok _ =>
      (c1, send_bye invite :: t1 ++ [media_stop],
       if Call.reason_is (Call.stop_reason c1) CallStopReason.BYE_FROM_LOCAL
       then Ok tt else Raise (Exception Call.msg_stop_reason))
  | Raise e => (c1, send_bye invite :: t1, Raise e)
  end.
Proof.
  intros Hst Hr Hne Hinv. unfold Call._stop, wait_for_ended.
  rewrite bind_run. unfold get.
  destruct c as [ap mp ty st sd pi ir ci si nu sr er au bd]; simpl in *.
  subst.
  assert (Call.truthy_state st && negb (Call.state_is st CallState.ENDED)
          = true) as -> by (destruct Hst as [-> | ->]; done).
  assert (Call.state_is st CallState.TRYING
          || Call.state_is st CallState.ANSWERED = true) as ->
    by (destruct Hst as [-> | ->]; done).
  assert (CallStopReason.eqb r CallStopReason.BYE_FROM_PBX = false) as Hr
    by (destruct r; done).
  rewrite bind_run. simpl. rewrite Hr.
  rewrite bind_run. simpl. rewrite bind_run. simpl.
  rewrite bind_run.
  match goal with |- context [try_wait ?a ?b ?c ?d ?e ?f ?g] =>
    destruct (try_wait a b c d e f g) as [[c1 t1] [o|e1]] end; [|done].
  rewrite bind_run. simpl. rewrite bind_run. simpl.
  destruct (Call.reason_is (Call.stop_reason c1) CallStopReason.BYE_FROM_LOCAL);
    simpl; rewrite ?app_nil_r; done.
Qed.

Lemma stop_noop (others : list (M Call.t unit)) (c : Call.t) :
  Call.state c = Some CallState.ENDED ∨ Call.state c = None →
  Call._stop polls_per_unit others c = (c, [], Ok tt).
Proof.
  intros H. unfold Call._stop. rewrite bind_run. unfold get.
  destruct H as [-> | ->]; reflexivity.
Qed.

Lemma stop_unknown_caller (others : list (M Call.t unit)) (c : Call.t)
    (r : CallStopReason.t) :
  Call.state c = Some CallState.DIALING ∨ Call.state c = Some CallState.RINGING →
  Call.stop_reason c = Some r → r ≠ CallStopReason.BYE_FROM_PBX →
  Call._stop polls_per_unit others c
  = (c, [], Raise (RuntimeError Call.msg_unknown_caller)).
Proof.
  intros Hst Hr Hne. unfold Call._stop. rewrite bind_run. unfold get.
  destruct c as [ap mp ty st sd pi ir ci si nu sr er au bd]; simpl in *.
  subst. destruct Hst as [-> | ->]; destruct r; done.
Qed.

(** C7 (amended).  [_stop] does nothing when the state is Ended, and also
    when it is still unset.  When the state is Trying or Answered and the
    reason is not the remote teardown, this thread sends the BYE for the
    stored invite, exactly once, then sleeps at most the polling intervals
    of 5 units: if the state is seen Ended it stops the media (and returns,
    or raises when the reason is not the local one); if not, it raises the
    timeout after all of them and does not stop the media.  With the member
    DIALING or RINGING as state it raises the unknown-caller error at
    once. *)
Theorem stop_cases (others : list (M Call.t unit)) (c : Call.t) :
  (Call.state c = Some CallState.ENDED ∨ Call.state c = None →
   Call._stop polls_per_unit others c = (c, [], Ok tt))
  ∧ (∀ r invite,
       Call.state c = Some CallState.TRYING
       ∨ Call.state c = Some CallState.ANSWERED →
       Call.stop_reason c = Some r → r ≠ CallStopReason.BYE_FROM_PBX →
       Call.invite_request c = Some invite →
       ∃ c' tr res k,
         Call._stop polls_per_unit others c = (c', tr, res)
         ∧ (k ≤ Call.polls_in polls_per_unit 5)%nat
         ∧ count is_send_bye (own tr) = 1%nat
         ∧ ((own tr = send_bye invite :: repeat poll_interval k ++ [media_stop]
             ∧ Call.state c' = Some CallState.ENDED
             ∧ res = if Call.reason_is (Call.stop_reason c')
                          CallStopReason.BYE_FROM_LOCAL
                     then Ok tt else Raise (Exception Call.msg_stop_reason))
            ∨ (own tr = send_bye invite :: repeat poll_interval k
               ∧ k = Call.polls_in polls_per_unit 5
               ∧ res = Raise (WaitTimeout Call.msg_no_ok_bye)
               ∧ Call.state c' ≠ Some CallState.ENDED)))
  ∧ (∀ r,
       Call.state c = Some CallState.DIALING
       ∨ Call.state c = Some CallState.RINGING →
       Call.stop_reason c = Some r → r ≠ CallStopReason.BYE_FROM_PBX →
       Call._stop polls_per_unit others c
       = (c, [], Raise (RuntimeError Call.msg_unknown_caller))).
Proof.
  split; [apply stop_noop|split].
  - intros r invite Hst Hr Hne Hinv.
    rewrite (stop_local_run others c r invite Hst Hr Hne Hinv).
    destruct (wait_for_ended_outcome (Call.polls_in polls_per_unit 5) others c)
      as (c' & tr & k & Hown & Hk & [[-> Hend] | (-> & -> & Hend)]).
    + eexists c', _, _, k. split; [reflexivity|]. split; [exact Hk|].
      simpl. rewrite own_app, Hown. split.
      * rewrite count_cons, count_app, count_poll_intervals by done. done.
      * left. done.
    + eexists c', _, _, _. split; [reflexivity|]. split; [done|].
      simpl. rewrite Hown. split.
      * rewrite count_cons, count_poll_intervals by done. done.
      * right. done.
  - intros r. apply stop_unknown_caller.
Qed.

Lemma hangup_ended (others : list (M Call.t unit)) (c : Call.t) :
  Call.state c = Some CallState.ENDED →
  Call._hangup polls_per_unit others c = (c, [], Ok tt).
Proof.
  intros H. unfold Call._hangup. rewrite bind_run. unfold get. rewrite H.
  reflexivity.
Qed.

Lemma hangup_unset (others : list (M Call.t unit)) (c : Call.t) :
  Call.state c = None →
  Call._hangup polls_per_unit others c
  = (Call.with_stop_reason (Some CallStopReason.BYE_FROM_LOCAL) c, [], Ok tt).
Proof.
  intros H. unfold Call._hangup. rewrite bind_run. unfold get. rewrite H.
  simpl. rewrite bind_run. unfold modify.
  rewrite stop_noop by (right; exact H). reflexivity.
Qed.

(** C9 (amended).  When the first [_hangup] returns without raising, the
    second one changes nothing, sends nothing, and returns. *)
Theorem hangup_twice (others1 others2 : list (M Call.t unit))
    (c c1 : Call.t) (tr1 : list effect) :
  Call._hangup polls_per_unit others1 c = (c1, tr1, Ok tt) →
  Call._hangup polls_per_unit others2 c1 = (c1, [], Ok tt).
Proof.
  intros H.
  destruct (Call.state c) as [st|] eqn:Hst.
  2:{ rewrite hangup_unset in H by done. inversion H; subst.
      rewrite hangup_unset by done. reflexivity. }
  apply hangup_ended.
  destruct st.
  5:{ rewrite hangup_ended in H by done. inversion H; subst. done. }
  all: unfold Call._hangup in H; rewrite bind_run in H; unfold get in H;
    rewrite Hst in H; simpl in H; rewrite bind_run in H; unfold modify in H;
    set (c0 := Call.with_stop_reason (Some CallStopReason.BYE_FROM_LOCAL) c)
      in *.
  1,2: rewrite (stop_unknown_caller others1 c0 CallStopReason.BYE_FROM_LOCAL)
      in H by (subst c0; simpl; auto); done.
  all: destruct (Call.invite_request c) as [invite|] eqn:Hinv.
  1,3: rewrite (stop_local_run others1 c0 CallStopReason.BYE_FROM_LOCAL invite)
      in H by (subst c0; simpl; auto);
    destruct (wait_for_ended_outcome (Call.polls_in polls_per_unit 5)
                others1 c0)
      as (c' & tr & k & _ & _ & [[E Hend] | (E & _)]);
    rewrite E in H; [|done];
    destruct (Call.reason_is _ _); inversion H; subst; done.
  all: unfold Call._stop in H; rewrite bind_run in H; unfold get in H;
    replace (Call.state c0) with (Call.state c) in H by done;
    rewrite Hst in H; simpl in H; rewrite bind_run in H; simpl in H;
    rewrite bind_run in H; simpl in H; rewrite Hinv in H; simpl in H; done.
Qed.

(** C10.  A call that was placed and has handled no event holds no state;
    [_hangup] on it records the local reason, sends nothing (no BYE), and
    leaves the state unset, and so does every further [_hangup]: Ended is
    not reached. *)
Theorem hangup_before_any_event (CALL_TYPE num : string)
    (pbx : Call.pbx_info_t) (media : Call.MediaWrapper) (invite : SIPMessage)
    (others others' : list (M Call.t unit)) :
  let new_call :=
    (Call._new_call num invite (Call.__init__ CALL_TYPE pbx media)).1.1 in
  let hung := Call.with_stop_reason (Some CallStopReason.BYE_FROM_LOCAL)
                new_call in
  Call.state new_call = None
  ∧ Call._hangup polls_per_unit others new_call = (hung, [], Ok tt)
  ∧ Call.stop_reason hung = Some CallStopReason.BYE_FROM_LOCAL
  ∧ Call.state hung = None
  ∧ Call._hangup polls_per_unit others' hung = (hung, [], Ok tt).
Proof.
  intros new_call hung.
  assert (Call.state new_call = None) as Hst by reflexivity.
  split; [exact Hst|]. split; [by apply hangup_unset|].
  split; [reflexivity|]. split; [reflexivity|].
  rewrite hangup_unset by reflexivity. reflexivity.
Qed.

(** C3 (amended).  A not-found response handled while the state is unset
    records the reason [SIP_ERROR] and the error, sends the acknowledgment
    and nothing else, and returns: the state stays unset, the media is not
    connected.  With the member [DIALING] as state the same is written and
    sent, and [_stop] raises the unknown-caller error: the state stays
    [DIALING]. *)
Theorem handle_not_found_while_dialing (others : list (M Call.t unit))
    (request : SIPMessage) (c : Call.t) :
  is_dialing (Call.state c) = true →
  let c1 := Call.with_error (Some ("not found", request))
              (Call.with_stop_reason (Some CallStopReason.SIP_ERROR) c) in
  Call._handle_not_found polls_per_unit others request c
  = (c1, [send_ack request],
     match Call.state c with
     | None => Ok tt
     | Some _ => Raise (RuntimeError Call.msg_unknown_caller)
     end)
  ∧ Call.state c1 = Call.state c
  ∧ Call.stop_reason c1 = Some CallStopReason.SIP_ERROR
  ∧ count is_connect [send_ack request] = O
  ∧ count is_send_bye [send_ack request] = O.
Proof.
  intros Hd c1. split; [|done].
  unfold Call._handle_not_found. rewrite !bind_run. unfold modify, emit.
  rewrite !bind_run. fold c1.
  destruct (Call.state c) as [[]|] eqn:Hst; try discriminate.
  - rewrite (stop_unknown_caller others c1 CallStopReason.SIP_ERROR)
      by (subst c1; simpl; auto). reflexivity.
  - rewrite stop_noop by (subst c1; simpl; auto). reflexivity.
Qed.

Lemma stop_alone_keeps_reason (c : Call.t) :
  Call.stop_reason (Call._stop polls_per_unit [] c).1.1 = Call.stop_reason c.
Proof.
  unfold Call._stop. rewrite bind_run. unfold get.
  destruct c as [ap mp ty st sd pi ir ci si nu sr er au bd]; simpl.
  destruct st as [[]|]; simpl; try done.
  all: rewrite bind_run; destruct sr as [[]|]; simpl; try done.
  all: try (destruct bd; done).
  all: rewrite bind_run; destruct ir as [invite|]; simpl; try done.
  all: rewrite bind_run; simpl; rewrite bind_run.
  all: match goal with |- context [try_wait ?a ?b ?c ?d ?e ?f ?g] =>
         pose proof (try_wait_alone a b c e f g) as Hw;
         destruct (try_wait a b c d e f g) as [[c1 t1] [o|e1]] end;
       simpl in Hw; subst c1; try done.
Qed.

(** C4 (amended).  The reason is assigned, not set once: whatever it was,
    after [_handle_not_found] and [_handle_unavailable] it is [SIP_ERROR],
    after [_handle_bye] it is [BYE_FROM_PBX], and after [_hangup] on a call
    that is not Ended it is [BYE_FROM_LOCAL] (nothing being delivered during
    the wait); [_hangup] on an Ended call, [_handle_trying], [_handle_OK]
    and [_handle_unauthorized] leave it as it was. *)
Theorem stop_reason_assigned (others : list (M Call.t unit))
    (request : SIPMessage) (c : Call.t) :
  Call.stop_reason (Call._handle_not_found polls_per_unit [] request c).1.1
  = Some CallStopReason.SIP_ERROR
  ∧ Call.stop_reason (Call._handle_unavailable polls_per_unit [] request c).1.1
    = Some CallStopReason.SIP_ERROR
  ∧ Call.stop_reason (Call._handle_bye polls_per_unit others request c).1.1
    = Some CallStopReason.BYE_FROM_PBX
  ∧ Call.stop_reason (Call._hangup polls_per_unit [] c).1.1
    = (if Call.state_is (Call.state c) CallState.ENDED
       then Call.stop_reason c else Some CallStopReason.BYE_FROM_LOCAL)
  ∧ Call.stop_reason (Call._handle_trying request c).1.1 = Call.stop_reason c
  ∧ Call.stop_reason (Call._handle_OK request c).1.1 = Call.stop_reason c
  ∧ Call.stop_reason (Call._handle_unauthorized request c).1.1
    = Call.stop_reason c.
Proof.
  repeat split.
  - unfold Call._handle_not_found. rewrite !bind_run. unfold modify, emit.
    rewrite !bind_run.
    match goal with |- context [Call._stop _ _ ?x] =>
      pose proof (stop_alone_keeps_reason x) as H;
      destruct (Call._stop polls_per_unit [] x) as [[c2 t2] r2] end.
    exact H.
  - unfold Call._handle_unavailable. rewrite !bind_run. unfold modify, emit.
    rewrite !bind_run.
    match goal with |- context [Call._stop _ _ ?x] =>
      pose proof (stop_alone_keeps_reason x) as H;
      destruct (Call._stop polls_per_unit [] x) as [[c2 t2] r2] end.
    exact H.
  - unfold Call._handle_bye, Call._stop. rewrite !bind_run. unfold modify, emit, get.
    rewrite !bind_run.
    destruct c as [ap mp ty st sd pi ir ci si nu sr er au bd]; simpl.
    destruct st as [[]|]; simpl; try done; destruct bd; done.
  - unfold Call._hangup. rewrite bind_run. unfold get.
    destruct (Call.state_is (Call.state c) CallState.ENDED); simpl; [done|].
    rewrite bind_run. unfold modify.
    match goal with |- context [Call._stop _ _ ?x] =>
      pose proof (stop_alone_keeps_reason x) as H;
      destruct (Call._stop polls_per_unit [] x) as [[c2 t2] r2] end.
    exact H.
  - unfold Call._handle_OK. rewrite bind_run. unfold get.
    destruct c as [ap mp ty st sd pi ir ci si nu sr er au bd]; simpl.
    destruct st as [[]|]; simpl; try done.
    + mrun. destruct (head (body_m_port request)); done.
    + destruct (_ =? _)%string; [done|]. destruct (_ =? _)%string; done.
  - unfold Call._handle_unauthorized. rewrite bind_run. unfold get.
    destruct c as [ap mp ty st sd pi ir ci si nu sr er au bd]; simpl.
    destruct au; simpl; [done|]. mrun. destruct nu; [|done]. destruct si; done.
Qed.

End Teardown.

(** The scenario: witnesses of the teardown properties, and the inputs on
    which the specification's wording fails. *)

Lemma stop_cases_witness :
  let leaving := Call.with_stop_reason (Some CallStopReason.BYE_FROM_LOCAL)
                   Scenario.answered in
  Call._stop 1 [] Scenario.dialing = (Scenario.dialing, [], Ok tt)
  ∧ (∃ c' tr res,
       Call._stop 1 [] leaving = (c', tr, res)
       ∧ count is_send_bye (own tr) = 1%nat)
  ∧ Call._stop 1 [] (Call.with_state (Some CallState.DIALING) leaving)
    = (Call.with_state (Some CallState.DIALING) leaving, [],
       Raise (RuntimeError Call.msg_unknown_caller)).
Proof.
  intros leaving. split; [|split].
  - apply (proj1 (stop_cases 1 [] Scenario.dialing)). right. reflexivity.
  - destruct (proj1 (proj2 (stop_cases 1 [] leaving))
                CallStopReason.BYE_FROM_LOCAL Scenario.invite)
      as (c' & tr & res & k & H & _ & Hcount & _).
    + right. reflexivity.
    + reflexivity.
    + discriminate.
    + reflexivity.
    + exists c', tr, res. split; [exact H | exact Hcount].
  - apply (proj2 (proj2 (stop_cases 1 []
                           (Call.with_state (Some CallState.DIALING) leaving)))
             CallStopReason.BYE_FROM_LOCAL).
    + left. reflexivity.
    + reflexivity.
    + discriminate.
Defined.

(** C7, as worded, fails: teardown of a call whose state is none of Ended,
    Trying, Answered (it is unset) returns instead of failing. *)
Lemma stop_unset_returns :
  let c := Call.with_stop_reason (Some CallStopReason.BYE_FROM_LOCAL)
             Scenario.dialing in
  Call.state c = None
  ∧ Call._stop Scenario.polls_per_unit [] c = (c, [], Ok tt).
Proof. split; reflexivity. Qed.

Lemma hangup_twice_witness :
  let ended :=
    (Call._hangup 1 (Phone.schedule 1 [[]; [Scenario.ok_bye]])
       Scenario.answered).1.1 in
  Call._hangup 1 [] ended = (ended, [], Ok tt).
Proof.
  intros ended.
  apply (hangup_twice 1 (Phone.schedule 1 [[]; [Scenario.ok_bye]]) []
           Scenario.answered ended
           (Call._hangup 1 (Phone.schedule 1 [[]; [Scenario.ok_bye]])
              Scenario.answered).1.2).
  vm_compute. reflexivity.
Defined.

(** C9, as worded, fails: the PBX does not answer the first BYE, the first
    [_hangup] raises the timeout, and the second one sends a second BYE. *)
Lemma hangup_twice_after_timeout :
  let first := Call._hangup Scenario.polls_per_unit [] Scenario.answered in
  let second := Call._hangup Scenario.polls_per_unit [] first.1.1 in
  first.2 = Raise (WaitTimeout Call.msg_no_ok_bye)
  ∧ count is_send_bye first.1.2 = 1%nat
  ∧ count is_send_bye second.1.2 = 1%nat
  ∧ second ≠ (first.1.1, [], Ok tt).
Proof. vm_compute. repeat split. discriminate. Qed.

Lemma handle_not_found_while_dialing_witness :
  Call.state
    (Call._handle_not_found 1 [] Scenario.not_found Scenario.dialing).1.1
  = None
  ∧ Call.stop_reason
      (Call._handle_not_found 1 [] Scenario.not_found Scenario.dialing).1.1
    = Some CallStopReason.SIP_ERROR.
Proof.
  destruct (handle_not_found_while_dialing 1 [] Scenario.not_found
              Scenario.dialing eq_refl) as (H & Hst & Hr & _).
  rewrite H. split; [exact Hst | exact Hr].
Defined.

(** C3, as worded, fails: after the not-found response the call that was
    just placed is not Ended. *)
Lemma not_found_while_dialing_not_ended :
  is_dialing (Call.state Scenario.dialing) = true
  ∧ Call.state
      (Call._handle_not_found Scenario.polls_per_unit [] Scenario.not_found
         Scenario.dialing).1.1
    ≠ Some CallState.ENDED.
Proof. split; [reflexivity | discriminate]. Qed.

(** C4, as worded, fails: the reason set by the not-found response is
    replaced by the one that [_hangup] sets. *)
Lemma stop_reason_overwritten :
  let c1 := (Call._handle_not_found Scenario.polls_per_unit []
               Scenario.not_found Scenario.dialing).1.1 in
  let c2 := (Call._hangup Scenario.polls_per_unit [] c1).1.1 in
  Call.stop_reason c1 = Some CallStopReason.SIP_ERROR
  ∧ Call.stop_reason c2 = Some CallStopReason.BYE_FROM_LOCAL.
Proof. split; reflexivity. Qed.

(** ** The transitions of the state *)

Lemma steady_ret {A} (a : A) : steady (mret a).
Proof. intros c Hc. split; [exact Hc | constructor]. Qed.

Lemma steady_raise {A} (e : exn) : steady (raise (A := A) e).
Proof. intros c Hc. split; [exact Hc | constructor]. Qed.

Lemma steady_item {A} (key : string) (v : option A) : steady (item key v).
Proof. destruct v; [apply steady_ret | apply steady_raise]. Qed.

Lemma steady_get : steady get.
Proof. intros c Hc. split; [exact Hc | constructor]. Qed.

Lemma steady_emit (e : effect) : state_writes [e] = [] → steady (emit e).
Proof. intros He c Hc. split; [exact Hc|]. simpl in *. rewrite He. constructor. Qed.

Lemma steady_modify (f : Call.t → Call.t) :
  (∀ c, Call.state (f c) = Call.state c) → steady (modify f).
Proof.
  intros Hf c [H1 H2]. split; [|constructor].
  split; simpl; rewrite Hf; assumption.
Qed.

Lemma steady_bind {A B} (m : M Call.t A) (f : A → M Call.t B) :
  steady m → (∀ a, steady (f a)) → steady (m ≫= f).
Proof.
  intros Hm Hf c Hc. rewrite bind_run.
  destruct (Hm c Hc) as [Ht Hw].
  destruct (m c) as [[c1 t1] [a|e]]; simpl in *; [|done].
  destruct (Hf a c1 Ht) as [Ht2 Hw2].
  destruct (f a c1) as [[c2 t2] r2]; simpl in *.
  split; [exact Ht2|]. rewrite state_writes_app. by apply Forall_app.
Qed.

Lemma steady_attempt (m : M Call.t unit) : steady m → steady (attempt m).
Proof.
  intros Hm c Hc. destruct (Hm c Hc) as [Ht Hw]. unfold attempt.
  destruct (m c) as [[c1 t1] r1]. done.
Qed.

Lemma steady_concurrently (m : M Call.t unit) :
  steady m → steady (concurrently m).
Proof.
  intros Hm c Hc. destruct (Hm c Hc) as [Ht Hw]. unfold concurrently.
  destruct (m c) as [[c1 t1] r1]. simpl in *.
  rewrite state_writes_other_thread. done.
Qed.

Lemma steady_try_wait {A} (awaitable : Call.t → result A) (check : A → bool)
    (polls : nat) (others : list (M Call.t unit)) (raise_after_time : bool)
    (msg : string) :
  Forall steady others →
  steady (try_wait awaitable check polls others raise_after_time msg).
Proof.
  revert others. induction polls as [|n IH]; intros others Ho c Hc.
  - simpl. destruct (from_option check false _); [by split|].
    destruct raise_after_time; by split.
  - destruct (from_option check false
                (match awaitable c with Ok a => Some a | Raise _ => None end))
      eqn:E.
    + simpl. rewrite E. by split.
    + rewrite try_wait_unsatisfied by exact E.
      assert (steady (default (mret ()) (head others))) as Hh.
      { destruct Ho; simpl; [apply steady_ret | assumption]. }
      assert (Forall steady (tail others)) as Ht.
      { destruct Ho; simpl; [constructor | assumption]. }
      destruct (Hh c Hc) as [Hc1 Hw1].
      destruct (default (mret ()) (head others) c) as [[c1 t1] r1].
      simpl in Hc1, Hw1.
      destruct (IH (tail others) Ht c1 Hc1) as [Hc2 Hw2].
      destruct (try_wait awaitable check n (tail others) raise_after_time msg c1)
        as [[c2 t2] r2].
      simpl in *. split; [exact Hc2|].
      rewrite state_writes_app, state_writes_other_thread.
      by apply Forall_app.
Qed.

Section Transitions.

Variable polls_per_unit : nat.

Lemma steady_stop (others : list (M Call.t unit)) :
  Forall steady others → steady (Call._stop polls_per_unit others).
Proof.
  intros Ho c Hc.
  destruct (Call.state c) as [st|] eqn:Hst.
  2:{ rewrite stop_noop by auto. by split. }
  destruct st.
  1,2: destruct Hc; congruence.
  3:{ rewrite stop_noop by auto. by split. }
  all: destruct (Call.stop_reason c) as [r|] eqn:Hr.
  2,4: unfold Call._stop; rewrite bind_run; unfold get; rewrite Hst; simpl;
    rewrite bind_run, Hr; simpl; by split.
  all: destruct (Call.invite_request c) as [invite|] eqn:Hinv.
  all: destruct r.
  (* the remote teardown: the media is stopped and the state written *)
  2,5,8,11: unfold Call._stop; rewrite bind_run; unfold get; rewrite Hst;
    simpl; rewrite bind_run, Hr; simpl;
    destruct (Call.bye_recv_delay c); mrun;
    rewrite Hst; (split; [split; discriminate | repeat constructor]).
  (* no invite to build the BYE from *)
  3,4,7,8: unfold Call._stop; rewrite bind_run; unfold get; rewrite Hst;
    simpl; rewrite bind_run, Hr; simpl; rewrite bind_run, Hinv;
    simpl; by split.
  (* the local branch *)
  all: match goal with
       | H : Call.stop_reason _ = Some ?r |- _ =>
           rewrite (stop_local_run polls_per_unit others _ r invite)
             by (auto; discriminate)
       end;
    unfold wait_for_ended;
    match goal with |- context [try_wait ?a ?b ?n ?o ?e ?f ?x] =>
      destruct (steady_try_wait a b n o e f Ho x Hc) as [Hc1 Hw1];
      destruct (try_wait a b n o e f x) as [[c1 t1] [r1|e1]]
    end; simpl in *; (split; [exact Hc1|]);
    rewrite ?state_writes_app, ?app_nil_r; simpl; rewrite ?app_nil_r;
    exact Hw1.
Qed.

Lemma steady_set_trying : steady (Call._set_state CallState.TRYING).
Proof.
  intros c [H1 H2]. mrun. split; [split; discriminate|].
  repeat constructor. by destruct (Call.state c) as [[]|].
Qed.

Lemma steady_handle_OK (request : SIPMessage) :
  steady (Call._handle_OK request).
Proof.
  intros c Hc. unfold Call._handle_OK. rewrite bind_run. unfold get.
  destruct (Call.state c) as [[]|] eqn:Hst; simpl.
  1,2: destruct Hc; congruence.
  - mrun. rewrite Hst.
    destruct (head (body_m_port request)); simpl;
      (split; [split; discriminate | repeat constructor]).
  - destruct (_ =? _)%string; simpl.
    + mrun. rewrite Hst. split; [split; discriminate | repeat constructor].
    + destruct (_ =? _)%string; simpl; by split.
  - by split.
  - by split.
Qed.

Lemma steady_handle_unauthorized (request : SIPMessage) :
  steady (Call._handle_unauthorized request).
Proof.
  unfold Call._handle_unauthorized.
  apply steady_bind; [apply steady_get|]. intros self.
  destruct (negb (Call.auth_sent self)); [|apply steady_raise].
  apply steady_bind; [by apply steady_emit|]. intros _.
  apply steady_bind; [apply steady_item|]. intros num.
  apply steady_bind; [apply steady_item|]. intros sess.
  apply steady_bind; [by apply steady_emit|]. intros _.
  by apply steady_modify.
Qed.

Lemma steady_route (others : list (M Call.t unit)) (request : SIPMessage) :
  Forall steady others → steady (Phone.route polls_per_unit others request).
Proof.
  intros Ho. unfold Phone.route.
  destruct (SIPMessageType.eqb _ _).
  - destruct (_ =? _)%string; [|apply steady_raise].
    unfold Call._handle_bye.
    apply steady_bind; [by apply steady_emit|]. intros _.
    apply steady_bind; [by apply steady_modify|]. intros _.
    by apply steady_stop.
  - destruct (status request).
    + apply steady_set_trying.
    + apply steady_handle_OK.
    + unfold Call._handle_not_found.
      apply steady_bind; [by apply steady_modify|]. intros _.
      apply steady_bind; [by apply steady_modify|]. intros _.
      apply steady_bind; [by apply steady_emit|]. intros _.
      by apply steady_stop.
    + unfold Call._handle_unavailable.
      apply steady_bind; [by apply steady_modify|]. intros _.
      apply steady_bind; [by apply steady_modify|]. intros _.
      apply steady_bind; [by apply steady_emit|]. intros _.
      by apply steady_stop.
    + apply steady_handle_unauthorized.
    + apply steady_handle_unauthorized.
    + apply steady_raise.
Qed.

Lemma steady_hangup (others : list (M Call.t unit)) :
  Forall steady others → steady (Call._hangup polls_per_unit others).
Proof.
  intros Ho. unfold Call._hangup.
  apply steady_bind; [apply steady_get|]. intros self.
  destruct (negb _); [|apply steady_ret].
  apply steady_bind; [by apply steady_modify|]. intros _.
  by apply steady_stop.
Qed.

Lemma steady_deliver (batch : list SIPMessage) :
  steady (Phone.deliver polls_per_unit batch).
Proof.
  induction batch as [|request batch IH]; [apply steady_ret|].
  simpl. apply steady_bind; [|intros _; exact IH].
  apply steady_attempt, steady_route. constructor.
Qed.

Lemma steady_schedule (during : list (list SIPMessage)) :
  Forall steady (Phone.schedule polls_per_unit during).
Proof.
  unfold Phone.schedule. apply Forall_fmap, Forall_forall.
  intros batch _. apply steady_deliver.
Qed.

Lemma steady_history (ops : list Phone.operation) :
  steady (Phone.history polls_per_unit ops).
Proof.
  induction ops as [|o ops IH]; [apply steady_ret|].
  simpl. apply steady_bind; [|intros _; exact IH].
  apply steady_attempt. destruct o as [request during | during].
  - apply steady_route, steady_schedule.
  - apply steady_hangup, steady_schedule.
Qed.

(** C1 (amended).  On a call placed by [_new_call], whatever events are
    routed to it and whenever the caller hangs up, every write of the state
    is one of: to Trying, from any state (unset, Trying, Answered or
    Ended); from Trying to Answered; from Trying or from Answered to
    Ended. *)
Theorem state_transitions (CALL_TYPE num : string) (pbx : Call.pbx_info_t)
    (media : Call.MediaWrapper) (invite : SIPMessage)
    (ops : list Phone.operation) :
  let new_call :=
    (Call._new_call num invite (Call.__init__ CALL_TYPE pbx media)).1.1 in
  Forall (λ w, transition_allowed w = true)
    (state_writes (Phone.history polls_per_unit ops new_call).1.2).
Proof.
  intros new_call. apply steady_history. split; discriminate.
Qed.

End Transitions.

(** C1, as worded, fails: a "trying" response that arrives after the answer
    takes the state back from Answered to Trying. *)
Lemma answered_back_to_trying :
  let ops := [Phone.event Scenario.trying []; Phone.event Scenario.ok_invite [];
              Phone.event Scenario.trying []] in
  state_writes
    (Phone.history Scenario.polls_per_unit ops Scenario.dialing).1.2
  = [(None, Some CallState.TRYING);
     (Some CallState.TRYING, Some CallState.ANSWERED);
     (Some CallState.ANSWERED, Some CallState.TRYING)]
  ∧ spec_transition (Some CallState.ANSWERED, Some CallState.TRYING) = false.
Proof. split; reflexivity. Qed.

(** Each of these writes does occur on the call of the scenario. *)
Lemma transitions_all_reachable (w : option CallState.t * option CallState.t) :
  transition_allowed w = true →
  ∃ ops,
    w ∈ state_writes
          (Phone.history Scenario.polls_per_unit ops Scenario.dialing).1.2.
Proof.
  destruct w as [[[]|] [[]|]]; try discriminate; intros _.
  - exists [Phone.event Scenario.trying []; Phone.event Scenario.trying []].
    vm_compute. repeat constructor.
  - exists [Phone.event Scenario.trying []; Phone.event Scenario.ok_invite []].
    vm_compute. repeat constructor.
  - exists [Phone.event Scenario.trying []; Phone.event Scenario.bye []].
    vm_compute. repeat constructor.
  - exists [Phone.event Scenario.trying []; Phone.event Scenario.ok_invite [];
            Phone.event Scenario.trying []].
    vm_compute. repeat constructor.
  - exists [Phone.event Scenario.trying []; Phone.event Scenario.ok_invite [];
            Phone.event Scenario.bye []].
    vm_compute. repeat constructor.
  - exists [Phone.event Scenario.trying []; Phone.event Scenario.bye [];
            Phone.event Scenario.trying []].
    vm_compute. repeat constructor.
  - exists [Phone.event Scenario.trying []].
    vm_compute. repeat constructor.
Qed.

(** ** What identifies a placed call is never rewritten *)

Lemma same_placement_refl (c : Call.t) : same_placement c c.
Proof. by repeat split. Qed.

Lemma same_placement_trans (c1 c2 c3 : Call.t) :
  same_placement c1 c2 → same_placement c2 c3 → same_placement c1 c3.
Proof.
  intros (H1 & H2 & H3 & H4) (G1 & G2 & G3 & G4).
  repeat split; congruence.
Qed.

Lemma keeps_ret {A} (a : A) : keeps_placement (mret a).
Proof. intros c. apply same_placement_refl. Qed.

Lemma keeps_raise {A} (e : exn) : keeps_placement (raise (A := A) e).
Proof. intros c. apply same_placement_refl. Qed.

Lemma keeps_item {A} (key : string) (v : option A) :
  keeps_placement (item key v).
Proof. destruct v; [apply keeps_ret | apply keeps_raise]. Qed.

Lemma keeps_get : keeps_placement get.
Proof. intros c. apply same_placement_refl. Qed.

Lemma keeps_emit (e : effect) : keeps_placement (emit e).
Proof. intros c. apply same_placement_refl. Qed.

Lemma keeps_modify (f : Call.t → Call.t) :
  (∀ c, same_placement c (f c)) → keeps_placement (modify f).
Proof. intros Hf c. apply Hf. Qed.

Lemma keeps_bind {A B} (m : M Call.t A) (f : A → M Call.t B) :
  keeps_placement m → (∀ a, keeps_placement (f a)) → keeps_placement (m ≫= f).
Proof.
  intros Hm Hf c. rewrite bind_run. specialize (Hm c).
  destruct (m c) as [[c1 t1] [a|e]]; simpl in *; [|done].
  specialize (Hf a c1). destruct (f a c1) as [[c2 t2] r2]; simpl in *.
  by apply same_placement_trans with c1.
Qed.

Lemma keeps_attempt (m : M Call.t unit) :
  keeps_placement m → keeps_placement (attempt m).
Proof.
  intros Hm c. specialize (Hm c). unfold attempt.
  by destruct (m c) as [[c1 t1] r1].
Qed.

Lemma keeps_try_wait {A} (awaitable : Call.t → result A) (check : A → bool)
    (polls : nat) (others : list (M Call.t unit)) (raise_after_time : bool)
    (msg : string) :
  Forall keeps_placement others →
  keeps_placement (try_wait awaitable check polls others raise_after_time msg).
Proof.
  revert others. induction polls as [|n IH]; intros others Ho c.
  - simpl. destruct (from_option check false _);
      [apply same_placement_refl|].
    destruct raise_after_time; apply same_placement_refl.
  - destruct (from_option check false
                (match awaitable c with Ok a => Some a | Raise _ => None end))
      eqn:E.
    + simpl. rewrite E. apply same_placement_refl.
    + rewrite try_wait_unsatisfied by exact E.
      assert (keeps_placement (default (mret ()) (head others))) as Hh.
      { destruct Ho; simpl; [apply keeps_ret | assumption]. }
      assert (Forall keeps_placement (tail others)) as Ht.
      { destruct Ho; simpl; [constructor | assumption]. }
      specialize (Hh c).
      destruct (default (mret ()) (head others) c) as [[c1 t1] r1].
      specialize (IH (tail others) Ht c1).
      destruct (try_wait awaitable check n (tail others) raise_after_time msg c1)
        as [[c2 t2] r2].
      simpl in *. by apply same_placement_trans with c1.
Qed.

Ltac keeps :=
  repeat first
    [ apply keeps_ret | apply keeps_raise | apply keeps_item | apply keeps_get
    | apply keeps_emit | apply keeps_modify; intros ?; by repeat split
    | apply keeps_try_wait; assumption
    | apply keeps_bind; [|intros ?]
    | match goal with
      | |- keeps_placement (if ?b then _ else _) => destruct b
      | |- keeps_placement (match ?x with _ => _ end) => destruct x
      end ].

Section Placement.

Variable polls_per_unit : nat.

Lemma keeps_stop (others : list (M Call.t unit)) :
  Forall keeps_placement others →
  keeps_placement (Call._stop polls_per_unit others).
Proof. intros Ho. unfold Call._stop, Call._stop_media, Call._set_state. keeps. Qed.

Lemma keeps_hangup (others : list (M Call.t unit)) :
  Forall keeps_placement others →
  keeps_placement (Call._hangup polls_per_unit others).
Proof.
  intros Ho. unfold Call._hangup.
  apply keeps_bind; [apply keeps_get|]. intros self.
  destruct (negb _); [|apply keeps_ret].
  apply keeps_bind; [keeps | intros _; by apply keeps_stop].
Qed.

Lemma keeps_route (others : list (M Call.t unit)) (request : SIPMessage) :
  Forall keeps_placement others →
  keeps_placement (Phone.route polls_per_unit others request).
Proof.
  intros Ho. pose proof (keeps_stop others Ho) as Hstop.
  unfold Phone.route, Call._handle_bye, Call._handle_trying, Call._handle_OK,
    Call._handle_not_found, Call._handle_unavailable,
    Call._handle_unauthorized, Call._set_state.
  destruct (SIPMessageType.eqb _ _); [destruct (_ =? _)%string|
                                      destruct (status request)].
  all: repeat first [ exact Hstop | progress keeps ].
Qed.

Lemma keeps_deliver (batch : list SIPMessage) :
  keeps_placement (Phone.deliver polls_per_unit batch).
Proof.
  induction batch as [|request batch IH]; [apply keeps_ret|].
  simpl. apply keeps_bind; [|intros _; exact IH].
  apply keeps_attempt, keeps_route. constructor.
Qed.

Lemma keeps_schedule (during : list (list SIPMessage)) :
  Forall keeps_placement (Phone.schedule polls_per_unit during).
Proof.
  unfold Phone.schedule. apply Forall_fmap, Forall_forall.
  intros batch _. apply keeps_deliver.
Qed.

(** Whatever happens to a call, it keeps the number, the session id, the
    invite and the Call-ID it was placed with: the handlers find them. *)
Lemma history_keeps_placement (ops : list Phone.operation) :
  keeps_placement (Phone.history polls_per_unit ops).
Proof.
  induction ops as [|o ops IH]; [apply keeps_ret|].
  simpl. apply keeps_bind; [|intros _; exact IH].
  apply keeps_attempt. destruct o as [request during | during].
  - apply keeps_route, keeps_schedule.
  - apply keeps_hangup, keeps_schedule.
Qed.

Lemma history_of_placed (CALL_TYPE num : string) (pbx : Call.pbx_info_t)
    (media : Call.MediaWrapper) (invite : SIPMessage)
    (ops : list Phone.operation) :
  let c := (Phone.history polls_per_unit ops
              (Call._new_call num invite
                 (Call.__init__ CALL_TYPE pbx media)).1.1).1.1 in
  Call.number c = Some num ∧ Call.sess_id c = Some (body_o_id invite)
  ∧ Call.invite_request c = Some invite
  ∧ Call.call_id c = Some (headers_Call_ID invite).
Proof. intros c. apply (history_keeps_placement ops). Qed.

End Placement.

(** ** Authentication *)

(** C6. On a placed call (it has its number and its session id, see
    [history_of_placed]) with no authentication attempt recorded,
    [_handle_unauthorized] sends the acknowledgment, then one invite with
    the session id and the challenge, and sets the flag; invoked again on
    the call it left, it raises and sends nothing: over the two invocations
    exactly one invite was sent. *)
Theorem handle_unauthorized_once (request request2 : SIPMessage) (c : Call.t)
    (num sess : string) :
  Call.auth_sent c = false →
  Call.number c = Some num →
  Call.sess_id c = Some sess →
  let c1 := Call.with_auth_sent true c in
  let invite := send_invite num (Call.media_port c) (Call.sendtype c)
                  (Call.available_payload c) (Some sess) (Some request) in
  Call._handle_unauthorized request c = (c1, [send_ack request; invite], Ok tt)
  ∧ count is_send_invite [send_ack request; invite] = 1%nat
  ∧ Call.auth_sent c1 = true
  ∧ Call._handle_unauthorized request2 c1
    = (c1, [], Raise (RuntimeError Call.msg_401_twice)).
Proof.
  intros Hflag Hnum Hsess.
  destruct c as [ap mp ty st sd pi ir ci si nu sr er au bd]; simpl in *.
  subst. repeat split.
Qed.

Lemma handle_unauthorized_once_witness :
  Call._handle_unauthorized Scenario.unauthorized Scenario.dialing
  = (Call.with_auth_sent true Scenario.dialing,
     [send_ack Scenario.unauthorized;
      send_invite "1000" 5004 TransmitType.SENDRECV ["PCMA"] (Some "4242")
        (Some Scenario.unauthorized)],
     Ok tt)
  ∧ Call._handle_unauthorized Scenario.unauthorized
      (Call.with_auth_sent true Scenario.dialing)
    = (Call.with_auth_sent true Scenario.dialing, [],
       Raise (RuntimeError Call.msg_401_twice)).
Proof.
  destruct (handle_unauthorized_once Scenario.unauthorized
              Scenario.unauthorized Scenario.dialing "1000" "4242"
              eq_refl eq_refl eq_refl) as (H1 & _ & _ & H2).
  split; [exact H1 | exact H2].
Defined.

(** ** The registry *)

(** C2 (amended).  [Phone.call] sends the invite first and writes the new
    call into [calls] afterwards, under the Call-ID of the invite that the
    transport built: these are its two effects, in this order, and the
    registry it leaves is the one it found with that one entry written. *)
Theorem call_sends_then_registers (num : string) (media : Call.MediaWrapper)
    (invite : SIPMessage) (p : Phone.t) :
  let call_id := headers_Call_ID invite in
  let number := Phone.dial_prefix p +:+ num in
  let new_call :=
    (Call._new_call number invite
       (Call.__init__ (Phone.CALL_TYPE p)
          {| Call.host := Phone.pbx_host p; Call.port := Phone.pbx_port p |}
          media)).1.1 in
  let trace :=
    [send_invite number (Call.data_port media) TransmitType.SENDRECV
       (Call.available_codecs media) None None;
     calls_setitem call_id] in
  Phone.call num media invite p
  = (Phone.with_calls (<[call_id := new_call]> (Phone.calls p)) p, trace,
     Ok new_call)
  ∧ first_index is_send_invite trace = Some 0%nat
  ∧ first_index is_calls_setitem trace = Some 1%nat
  ∧ inserted_before_invite trace = false.
Proof. repeat split. Qed.

(** C2, as worded, fails: on the phone of the scenario the invite is the
    first effect and the write of [calls] the second. *)
Lemma call_registers_after_invite :
  (Phone.call "1000" Scenario.media Scenario.invite Scenario.phone).1.2
  = [send_invite "1000" 5004 TransmitType.SENDRECV ["PCMA"] None None;
     calls_setitem "call-1"]
  ∧ inserted_before_invite
      (Phone.call "1000" Scenario.media Scenario.invite Scenario.phone).1.2
    = false.
Proof. split; reflexivity. Qed.

Lemma after_intervals_S {S} (others : list (M S unit)) (k : nat) (s : S) :
  after_intervals others (Datatypes.S k) s
  = after_intervals (tail others) k (default (mret tt) (head others) s).1.1.
Proof.
  simpl. unfold concurrently.
  destruct (default (mret ()) (head others) s) as [[s1 t1] r1]. reflexivity.
Qed.

Lemma lookup_found (polls : nat) (registering : list (M Phone.t unit))
    (p : Phone.t) (call_id msg : string) (k : nat) (c : Call.t) :
  (k ≤ polls)%nat →
  (∀ j, (j < k)%nat →
     Phone.calls (after_intervals registering j p) !! call_id = None) →
  Phone.calls (after_intervals registering k p) !! call_id = Some c →
  ∃ tr,
    try_wait (Phone.calls_getitem call_id) check_no_exception polls registering
      true msg p
    = (after_intervals registering k p, tr, Ok (Some c))
    ∧ own tr = repeat poll_interval k.
Proof.
  revert polls registering p.
  induction k as [|k IH]; intros polls registering p Hk Hnot Hfound.
  - exists []. split; [|done]. simpl in Hfound.
    change (after_intervals registering 0 p) with p.
    apply try_wait_satisfied; [|done].
    unfold Phone.calls_getitem. by rewrite Hfound.
  - destruct polls as [|n]; [lia|].
    rewrite try_wait_unsatisfied.
    2:{ pose proof (Hnot O ltac:(lia)) as H0. simpl in H0.
        unfold Phone.calls_getitem. rewrite H0. done. }
    rewrite after_intervals_S in *.
    assert (∀ j, (j < k)%nat →
              Phone.calls
                (after_intervals (tail registering) j
                   (default (mret ()) (head registering) p).1.1)
                !! call_id = None) as Hnot'.
    { intros j Hj. rewrite <- after_intervals_S. apply Hnot. lia. }
    destruct (default (mret ()) (head registering) p) as [[p1 t1] r1].
    simpl in Hnot', Hfound |- *.
    destruct (IH n (tail registering) p1 ltac:(lia) Hnot' Hfound)
      as (tr & -> & Hown).
    eexists. split; [reflexivity|].
    simpl. rewrite own_app, own_other_thread, Hown. done.
Qed.

Lemma lookup_timeout (polls : nat) (registering : list (M Phone.t unit))
    (p : Phone.t) (call_id msg : string) :
  (∀ j, (j ≤ polls)%nat →
     Phone.calls (after_intervals registering j p) !! call_id = None) →
  ∃ tr,
    try_wait (Phone.calls_getitem call_id) check_no_exception polls registering
      true msg p
    = (after_intervals registering polls p, tr, Raise (WaitTimeout msg))
    ∧ own tr = repeat poll_interval polls.
Proof.
  revert registering p.
  induction polls as [|n IH]; intros registering p Hnot.
  - exists []. split; [|done]. simpl.
    pose proof (Hnot O ltac:(lia)) as H0. simpl in H0.
    unfold Phone.calls_getitem. rewrite H0. done.
  - rewrite try_wait_unsatisfied.
    2:{ pose proof (Hnot O ltac:(lia)) as H0. simpl in H0.
        unfold Phone.calls_getitem. rewrite H0. done. }
    rewrite after_intervals_S.
    assert (∀ j, (j ≤ n)%nat →
              Phone.calls
                (after_intervals (tail registering) j
                   (default (mret ()) (head registering) p).1.1)
                !! call_id = None) as Hnot'.
    { intros j Hj. rewrite <- after_intervals_S. apply Hnot. lia. }
    destruct (default (mret ()) (head registering) p) as [[p1 t1] r1].
    simpl in Hnot' |- *.
    destruct (IH (tail registering) p1 Hnot') as (tr & -> & Hown).
    eexists. split; [reflexivity|].
    simpl. rewrite own_app, own_other_thread, Hown. done.
Qed.

(** C8.  [_callback] for an event whose Call-ID is not in [calls]: if the
    caller's thread writes it there during the [k]-th polling interval, [k]
    within the intervals of 2 units, the dispatcher has slept [k] intervals
    and routes the event to the call it then finds; if the Call-ID is
    still absent after all of them, it raises the lookup timeout, and has
    slept every one of them before. *)
Theorem callback_lookup (polls_per_unit : nat)
    (registering : list (M Phone.t unit)) (others : list (M Call.t unit))
    (request : SIPMessage) (p : Phone.t) :
  let call_id := headers_Call_ID request in
  let polls := Call.polls_in polls_per_unit 2 in
  (∀ k c,
     (k ≤ polls)%nat →
     (∀ j, (j < k)%nat →
        Phone.calls (after_intervals registering j p) !! call_id = None) →
     Phone.calls (after_intervals registering k p) !! call_id = Some c →
     ∃ tr0,
       own tr0 = repeat poll_interval k
       ∧ Phone._callback polls_per_unit registering others request p
         = let pk := after_intervals registering k p in
           let '(c', tr, r) := Phone.route polls_per_unit others request c in
           (Phone.with_calls (<[call_id := c']> (Phone.calls pk)) pk,
            tr0 ++ tr, r))
  ∧ ((∀ j, (j ≤ polls)%nat →
        Phone.calls (after_intervals registering j p) !! call_id = None) →
     ∃ tr,
       Phone._callback polls_per_unit registering others request p
       = (after_intervals registering polls p, tr,
          Raise (WaitTimeout (Phone.msg_no_call call_id)))
       ∧ own tr = repeat poll_interval polls).
Proof.
  intros call_id polls. split.
  - intros k c Hk Hnot Hfound.
    destruct (lookup_found polls registering p call_id
                (Phone.msg_no_call call_id) k c Hk Hnot Hfound)
      as (tr0 & Hrun & Hown).
    exists tr0. split; [exact Hown|].
    unfold Phone._callback. rewrite bind_run.
    fold call_id. fold polls. rewrite Hrun.
    unfold Phone.on_call. rewrite Hfound.
    destruct (Phone.route polls_per_unit others request c) as [[c' tr] r].
    reflexivity.
  - intros Hnot.
    destruct (lookup_timeout polls registering p call_id
                (Phone.msg_no_call call_id) Hnot) as (tr & Hrun & Hown).
    exists tr. split; [|exact Hown].
    unfold Phone._callback. rewrite bind_run.
    fold call_id. fold polls. rewrite Hrun.
    reflexivity.
Qed.

Lemma callback_lookup_witness :
  (∃ tr0,
     own tr0 = repeat poll_interval 2
     ∧ Phone._callback 1 Scenario.registering [] Scenario.trying Scenario.phone
       = (Phone.with_calls {["call-1" := Scenario.ringing]} Scenario.phone,
          tr0 ++ [state_write None (Some CallState.TRYING)], Ok tt))
  ∧ (∃ tr,
       Phone._callback 1 [] [] Scenario.trying Scenario.phone
       = (Scenario.phone, tr,
          Raise (WaitTimeout (Phone.msg_no_call "call-1")))
       ∧ own tr = repeat poll_interval 2).
Proof.
  split.
  - destruct (proj1 (callback_lookup 1 Scenario.registering []
                       Scenario.trying Scenario.phone) 2%nat Scenario.dialing)
      as (tr0 & Hown & Hrun).
    + vm_compute. lia.
    + intros j Hj. destruct j as [|[|j]]; [reflexivity | reflexivity | lia].
    + reflexivity.
    + exists tr0. split; [exact Hown|]. rewrite Hrun. reflexivity.
  - apply (proj2 (callback_lookup 1 [] [] Scenario.trying Scenario.phone)).
    intros j Hj. destruct j as [|[|[|j]]]; try reflexivity.
    vm_compute in Hj. lia.
Defined.

(** * The rest of the two classes *)

(** ** Invariants of a call *)

Section Preserved.

Variable I : Call.t → Prop.

Lemma preserves_ret {A} (a : A) : preserves I (mret a).
Proof. intros c Hc. exact Hc. Qed.

Lemma preserves_raise {A} (e : exn) : preserves I (raise (A := A) e).
Proof. intros c Hc. exact Hc. Qed.

Lemma preserves_item {A} (key : string) (v : option A) :
  preserves I (item key v).
Proof. destruct v; [apply preserves_ret | apply preserves_raise]. Qed.

Lemma preserves_get : preserves I get.
Proof. intros c Hc. exact Hc. Qed.

Lemma preserves_emit (e : effect) : preserves I (emit e).
Proof. intros c Hc. exact Hc. Qed.

Lemma preserves_modify (f : Call.t → Call.t) :
  (∀ c, I c → I (f c)) → preserves I (modify f).
Proof. intros Hf c Hc. by apply Hf. Qed.

Lemma preserves_bind {A B} (m : M Call.t A) (f : A → M Call.t B) :
  preserves I m → (∀ a, preserves I (f a)) → preserves I (m ≫= f).
Proof.
  intros Hm Hf c Hc. rewrite bind_run. specialize (Hm c Hc).
  destruct (m c) as [[c1 t1] [a|e]]; simpl in *; [|done].
  specialize (Hf a c1 Hm). by destruct (f a c1) as [[c2 t2] r2].
Qed.

Lemma preserves_attempt (m : M Call.t unit) :
  preserves I m → preserves I (attempt m).
Proof.
  intros Hm c Hc. specialize (Hm c Hc). unfold attempt.
  by destruct (m c) as [[c1 t1] r1].
Qed.

Lemma preserves_try_wait {A} (awaitable : Call.t → result A)
    (check : A → bool) (polls : nat) (others : list (M Call.t unit))
    (raise_after_time : bool) (msg : string) :
  Forall (preserves I) others →
  preserves I (try_wait awaitable check polls others raise_after_time msg).
Proof.
  revert others. induction polls as [|n IH]; intros others Ho c Hc.
  - simpl. destruct (from_option check false _); [done|].
    by destruct raise_after_time.
  - destruct (from_option check false
                (match awaitable c with Ok a => Some a | Raise _ => None end))
      eqn:E.
    + simpl. by rewrite E.
    + rewrite try_wait_unsatisfied by exact E.
      assert (preserves I (default (mret ()) (head others))) as Hh.
      { destruct Ho; simpl; [apply preserves_ret | assumption]. }
      assert (Forall (preserves I) (tail others)) as Ht.
      { destruct Ho; simpl; [constructor | assumption]. }
      specialize (Hh c Hc).
      destruct (default (mret ()) (head others) c) as [[c1 t1] r1].
      specialize (IH (tail others) Ht c1 Hh).
      by destruct (try_wait awaitable check n (tail others) raise_after_time
                     msg c1) as [[c2 t2] r2].
Qed.

(** What an invariant has to survive: the writes the methods make. *)
Hypothesis I_state : ∀ v c, I c → I (Call.with_state v c).
Hypothesis I_error : ∀ v c, I c → I (Call.with_error v c).
Hypothesis I_auth : ∀ c, I c → I (Call.with_auth_sent true c).
Hypothesis I_sip_error :
  ∀ c, I c → I (Call.with_stop_reason (Some CallStopReason.SIP_ERROR) c).
Hypothesis I_bye_from_pbx :
  ∀ c, I c → I (Call.with_stop_reason (Some CallStopReason.BYE_FROM_PBX) c).

Ltac preserved :=
  repeat first
    [ apply preserves_ret | apply preserves_raise | apply preserves_item
    | apply preserves_get | apply preserves_emit
    | apply preserves_modify; intros ?; first
        [ apply I_state | apply I_error | apply I_auth | apply I_sip_error
        | apply I_bye_from_pbx ]
    | apply preserves_try_wait; assumption
    | apply preserves_bind; [|intros ?]
    | match goal with
      | |- preserves _ (if ?b then _ else _) => destruct b
      | |- preserves _ (match ?x with _ => _ end) => destruct x
      end ].

Variable polls_per_unit : nat.

Lemma preserves_stop (others : list (M Call.t unit)) :
  Forall (preserves I) others →
  preserves I (Call._stop polls_per_unit others).
Proof.
  intros Ho. unfold Call._stop, Call._stop_media, Call._set_state. preserved.
Qed.

Lemma preserves_route (others : list (M Call.t unit)) (request : SIPMessage) :
  Forall (preserves I) others →
  preserves I (Phone.route polls_per_unit others request).
Proof.
  intros Ho. pose proof (preserves_stop others Ho) as Hstop.
  unfold Phone.route, Call._handle_bye, Call._handle_trying, Call._handle_OK,
    Call._handle_not_found, Call._handle_unavailable,
    Call._handle_unauthorized, Call._set_state.
  destruct (SIPMessageType.eqb _ _); [destruct (_ =? _)%string|
                                      destruct (status request)].
  all: repeat first [ exact Hstop | progress preserved ].
Qed.

Lemma preserves_deliver (batch : list SIPMessage) :
  preserves I (Phone.deliver polls_per_unit batch).
Proof.
  induction batch as [|request batch IH]; [apply preserves_ret|].
  simpl. apply preserves_bind; [|intros _; exact IH].
  apply preserves_attempt, preserves_route. constructor.
Qed.

Lemma preserves_schedule (during : list (list SIPMessage)) :
  Forall (preserves I) (Phone.schedule polls_per_unit during).
Proof.
  unfold Phone.schedule. apply Forall_fmap, Forall_forall.
  intros batch _. apply preserves_deliver.
Qed.

(** With the write of [_hangup] as well, every history keeps it. *)
Hypothesis I_bye_from_local :
  ∀ c, I c → I (Call.with_stop_reason (Some CallStopReason.BYE_FROM_LOCAL) c).

Lemma preserves_hangup (others : list (M Call.t unit)) :
  Forall (preserves I) others →
  preserves I (Call._hangup polls_per_unit others).
Proof.
  intros Ho. unfold Call._hangup.
  apply preserves_bind; [apply preserves_get|]. intros self.
  destruct (negb _); [|apply preserves_ret].
  apply preserves_bind; [|intros _; by apply preserves_stop].
  apply preserves_modify. intros c. apply I_bye_from_local.
Qed.

Lemma preserves_history (ops : list Phone.operation) :
  preserves I (Phone.history polls_per_unit ops).
Proof.
  induction ops as [|o ops IH]; [apply preserves_ret|].
  simpl. apply preserves_bind; [|intros _; exact IH].
  apply preserves_attempt. destruct o as [request during | during].
  - apply preserves_route, preserves_schedule.
  - apply preserves_hangup, preserves_schedule.
Qed.

End Preserved.

(** ** Placing a call *)

(** X1.  [_new_call] on a call that has no Call-ID sends one invite, keeps
    the number and what it reads off the invite, and leaves the state as it
    was; unless the Call-ID of that invite is empty, a second [_new_call]
    raises, sends nothing and changes nothing. *)
Theorem new_call_only_once (num num2 : string) (invite invite2 : SIPMessage)
    (c : Call.t) :
  Call.call_id c = None →
  headers_Call_ID invite ≠ "" →
  let c1 := Call.with_invite invite (Call.with_number (Some num) c) in
  Call._new_call num invite c
  = (c1,
     [send_invite num (Call.media_port c) (Call.sendtype c)
        (Call.available_payload c) None None],
     Ok tt)
  ∧ Call.state c1 = Call.state c
  ∧ Call._new_call num2 invite2 c1
    = (c1, [], Raise (Exception Call.msg_new_call)).
Proof.
  intros Hid Hne c1. split; [|split; [done|]].
  - unfold Call._new_call. rewrite bind_run. unfold get. rewrite Hid.
    reflexivity.
  - unfold Call._new_call. rewrite bind_run. unfold get.
    assert (Call.truthy_str (Call.call_id c1) = true) as ->; [|done].
    subst c1. simpl.
    destruct (String.eqb_spec (headers_Call_ID invite) ""); done.
Qed.

Lemma new_call_only_once_witness :
  Call._new_call "2000" Scenario.invite Scenario.dialing
  = (Scenario.dialing, [], Raise (Exception Call.msg_new_call)).
Proof.
  apply (new_call_only_once "1000" "2000" Scenario.invite Scenario.invite
           (Call.__init__ "outgoing"
              {| Call.host := "pbx"; Call.port := 5060 |} Scenario.media)).
  - reflexivity.
  - discriminate.
Defined.

(** ** The remote teardown *)

Section RemoteTeardown.

Variable polls_per_unit : nat.

Lemma handle_bye_run (others : list (M Call.t unit))
    (request : SIPMessage) (c : Call.t) :
  Call._handle_bye polls_per_unit others request c
  = if Call.truthy_state (Call.state c)
       && negb (Call.state_is (Call.state c) CallState.ENDED)
    then
      (Call.with_state (Some CallState.ENDED)
         (Call.with_stop_reason (Some CallStopReason.BYE_FROM_PBX) c),
       send_ok request
       :: match Call.bye_recv_delay c with
          | Some delay => [time_sleep delay]
          | None => []
          end
       ++ [media_stop; state_write (Call.state c) (Some CallState.ENDED)],
       Ok tt)
    else
      (Call.with_stop_reason (Some CallStopReason.BYE_FROM_PBX) c,
       [send_ok request], Ok tt).
Proof.
  unfold Call._handle_bye, Call._stop. rewrite !bind_run. unfold emit, modify, get.
  rewrite !bind_run.
  destruct c as [ap mp ty st sd pi ir ci si nu sr er au bd]; simpl.
  destruct st as [[]|]; simpl; try done; destruct bd; done.
Qed.


End RemoteTeardown.

(** ** The answer *)

(** X3.  A success response on a Trying call: the state is written Answered
    first; then, if the response has a media line, the media is connected
    to the host of the PBX and the port of the first line and the response
    is acknowledged; if it has none, the handler raises with the call
    already Answered, not connected and the response not acknowledged. *)
Theorem handle_OK_trying (request : SIPMessage) (c : Call.t) :
  Call.state c = Some CallState.TRYING →
  Call._handle_OK request c
  = match body_m_port request with
    | remote_port :: _ =>
        (Call.with_state (Some CallState.ANSWERED) c,
         [state_write (Some CallState.TRYING) (Some CallState.ANSWERED);
          set_socket_connection (Call.host (Call.pbx_info c)) remote_port;
          send_ack request],
         Ok tt)
    | [] =>
        (Call.with_state (Some CallState.ANSWERED) c,
         [state_write (Some CallState.TRYING) (Some CallState.ANSWERED)],
         Raise IndexError)
    end.
Proof.
  intros Hst. unfold Call._handle_OK. rewrite bind_run. unfold get.
  rewrite Hst. simpl. mrun. rewrite Hst.
  destruct (body_m_port request); reflexivity.
Qed.

Lemma handle_OK_trying_witness :
  Call._handle_OK Scenario.ok_bye Scenario.ringing
  = (Call.with_state (Some CallState.ANSWERED) Scenario.ringing,
     [state_write (Some CallState.TRYING) (Some CallState.ANSWERED)],
     Raise IndexError).
Proof. apply (handle_OK_trying Scenario.ok_bye Scenario.ringing). reflexivity. Defined.

(** ** Teardown that the PBX does not answer *)

Lemma wait_for_ended_alone (polls : nat) (c : Call.t) :
  Call.state c ≠ Some CallState.ENDED →
  wait_for_ended polls [] c
  = (c, repeat poll_interval polls, Raise (WaitTimeout Call.msg_no_ok_bye)).
Proof.
  intros Hne.
  assert (Call.state_is (Call.state c) CallState.ENDED = false) as E.
  { destruct (Call.state_is _ _) eqn:E; [|done].
    apply state_is_ended in E. done. }
  unfold wait_for_ended. induction polls as [|n IH].
  - simpl. rewrite E. reflexivity.
  - rewrite try_wait_unsatisfied by (simpl; by rewrite E).
    simpl. rewrite IH. reflexivity.
Qed.

Section Unanswered.

Variable polls_per_unit : nat.

(** X4.  [_hangup] on a Trying or Answered call while nothing is delivered:
    it records [BYE_FROM_LOCAL], sends one BYE for the stored invite, sleeps
    every polling interval of the 5 units and raises the timeout.  It
    writes the state nowhere and does not stop the media. *)
Theorem hangup_unanswered (c : Call.t) (invite : SIPMessage) :
  Call.state c = Some CallState.TRYING ∨ Call.state c = Some CallState.ANSWERED →
  Call.invite_request c = Some invite →
  Call._hangup polls_per_unit [] c
  = (Call.with_stop_reason (Some CallStopReason.BYE_FROM_LOCAL) c,
     send_bye invite
     :: repeat poll_interval (Call.polls_in polls_per_unit 5),
     Raise (WaitTimeout Call.msg_no_ok_bye)).
Proof.
  intros Hst Hinv. unfold Call._hangup. rewrite bind_run. unfold get.
  assert (negb (Call.state_is (Call.state c) CallState.ENDED) = true) as ->
    by (destruct Hst as [-> | ->]; done).
  rewrite bind_run. unfold modify.
  rewrite (stop_local_run polls_per_unit []
             (Call.with_stop_reason (Some CallStopReason.BYE_FROM_LOCAL) c)
             CallStopReason.BYE_FROM_LOCAL invite) by done.
  rewrite wait_for_ended_alone by (simpl; destruct Hst as [-> | ->]; done).
  reflexivity.
Qed.

(** X5.  A not-found or unavailable response on a Trying or Answered call
    while nothing is delivered: the reason and the error are recorded, the
    response is acknowledged, one BYE is sent for the stored invite, and
    after every polling interval of the 5 units the handler raises the
    timeout; the state stays what it was. *)
Theorem error_response_unanswered (request : SIPMessage) (c : Call.t)
    (invite : SIPMessage) :
  Call.state c = Some CallState.TRYING ∨ Call.state c = Some CallState.ANSWERED →
  Call.invite_request c = Some invite →
  let after kind :=
    (Call.with_error (Some (kind, request))
       (Call.with_stop_reason (Some CallStopReason.SIP_ERROR) c),
     send_ack request :: send_bye invite
     :: repeat poll_interval (Call.polls_in polls_per_unit 5),
     Raise (A := unit) (WaitTimeout Call.msg_no_ok_bye)) in
  Call._handle_not_found polls_per_unit [] request c = after "not found"
  ∧ Call._handle_unavailable polls_per_unit [] request c = after "unavailable".
Proof.
  intros Hst Hinv after. subst after.
  unfold Call._handle_not_found, Call._handle_unavailable.
  rewrite !bind_run. unfold modify, emit. rewrite !bind_run.
  split.
  all: match goal with |- context [Call._stop _ _ ?x] =>
         rewrite (stop_local_run polls_per_unit [] x CallStopReason.SIP_ERROR
                    invite) by done;
         rewrite wait_for_ended_alone
           by (simpl; destruct Hst as [-> | ->]; done)
       end; reflexivity.
Qed.

(** X6.  On a Trying or Answered call the error path never returns: whatever
    events the transport delivers while [_handle_not_found] or
    [_handle_unavailable] waits, the handler raises (the timeout, or the
    complaint about the reason once the state is seen Ended). *)
Theorem error_response_never_returns (during : list (list SIPMessage))
    (request : SIPMessage) (c : Call.t) :
  Call.state c = Some CallState.TRYING ∨ Call.state c = Some CallState.ANSWERED →
  (Call._handle_not_found polls_per_unit
     (Phone.schedule polls_per_unit during) request c).2 ≠ Ok tt
  ∧ (Call._handle_unavailable polls_per_unit
       (Phone.schedule polls_per_unit during) request c).2 ≠ Ok tt.
Proof.
  intros Hst.
  assert (∀ c0, Call.state c0 = Call.state c →
            Call.stop_reason c0 = Some CallStopReason.SIP_ERROR →
            (Call._stop polls_per_unit (Phone.schedule polls_per_unit during)
               c0).2 ≠ Ok tt) as Hstop.
  { intros c0 Hst0 Hr0. rewrite <- Hst0 in Hst.
    destruct (Call.invite_request c0) as [invite|] eqn:Hinv.
    - rewrite (stop_local_run polls_per_unit _ c0 CallStopReason.SIP_ERROR
                 invite) by done.
      unfold wait_for_ended.
      match goal with |- context [try_wait ?a ?b ?n ?o ?e ?f c0] =>
        pose proof (preserves_try_wait not_by_caller a b n o e f) as Hp;
        destruct (try_wait a b n o e f c0) as [[c1 t1] [o1|e1]] eqn:E
      end; [|done].
      assert (not_by_caller c1) as Hc1.
      { specialize (Hp (preserves_schedule not_by_caller
                          ltac:(done) ltac:(done) ltac:(done)
                          ltac:(done) ltac:(done) polls_per_unit during) c0).
        rewrite E in Hp. apply Hp. unfold not_by_caller. by rewrite Hr0. }
      unfold not_by_caller in Hc1. simpl.
      destruct (Call.stop_reason c1) as [[]|]; done.
    - unfold Call._stop. rewrite bind_run. unfold get.
      destruct Hst as [Hst | Hst]; rewrite Hst; simpl;
        rewrite bind_run, Hr0; simpl; rewrite bind_run, Hinv; done. }
  unfold Call._handle_not_found, Call._handle_unavailable.
  rewrite !bind_run. unfold modify, emit. rewrite !bind_run.
  split.
  all: match goal with |- context [Call._stop _ _ ?x] =>
         specialize (Hstop x eq_refl eq_refl);
         destruct (Call._stop polls_per_unit
                     (Phone.schedule polls_per_unit during) x)
           as [[c2 t2] r2]
       end; exact Hstop.
Qed.

End Unanswered.

Lemma hangup_unanswered_witness :
  Call._hangup 1 [] Scenario.answered
  = (Call.with_stop_reason (Some CallStopReason.BYE_FROM_LOCAL)
       Scenario.answered,
     send_bye Scenario.invite :: repeat poll_interval 5,
     Raise (WaitTimeout Call.msg_no_ok_bye)).
Proof.
  apply (hangup_unanswered 1 Scenario.answered Scenario.invite).
  - right. reflexivity.
  - reflexivity.
Defined.

Lemma error_response_unanswered_witness :
  Call._handle_not_found 1 [] Scenario.not_found Scenario.ringing
  = (Call.with_error (Some ("not found", Scenario.not_found))
       (Call.with_stop_reason (Some CallStopReason.SIP_ERROR)
          Scenario.ringing),
     send_ack Scenario.not_found :: send_bye Scenario.invite
     :: repeat poll_interval 5,
     Raise (WaitTimeout Call.msg_no_ok_bye)).
Proof.
  apply (error_response_unanswered 1 Scenario.not_found Scenario.ringing
           Scenario.invite).
  - left. reflexivity.
  - reflexivity.
Defined.

Lemma error_response_never_returns_witness :
  (Call._handle_not_found 1 (Phone.schedule 1 [[Scenario.bye]])
     Scenario.not_found Scenario.answered).2 ≠ Ok tt.
Proof.
  apply (error_response_never_returns 1 [[Scenario.bye]] Scenario.not_found
           Scenario.answered).
  right. reflexivity.
Defined.

(** ** Authentication, over a whole history *)

Section AuthenticationOnce.

Variable polls_per_unit : nat.

(** X7.  The attempt flag is never cleared: once a challenge has been
    answered, every later challenge raises and sends nothing, whatever
    events and hang-ups the call has been through in between. *)
Theorem unauthorized_after_history (ops : list Phone.operation)
    (request : SIPMessage) (c : Call.t) :
  Call.auth_sent c = true →
  let c1 := (Phone.history polls_per_unit ops c).1.1 in
  Call._handle_unauthorized request c1
  = (c1, [], Raise (RuntimeError Call.msg_401_twice)).
Proof.
  intros Hc c1.
  assert (Call.auth_sent c1 = true) as H.
  { apply (preserves_history (λ c, Call.auth_sent c = true)); done. }
  unfold Call._handle_unauthorized. rewrite bind_run. unfold get.
  rewrite H. reflexivity.
Qed.

(** X8.  The invite that answers the first challenge, however late it
    comes, offers what the first invite offered: the number dialled, the
    port and the codecs of the media wrapper, the direction, and with them
    the session id of the first invite and the challenge. *)
Theorem unauthorized_resends_the_offer (CALL_TYPE num : string)
    (pbx : Call.pbx_info_t) (media : Call.MediaWrapper) (invite : SIPMessage)
    (ops : list Phone.operation) (request : SIPMessage) :
  let c1 :=
    (Phone.history polls_per_unit ops
       (Call._new_call num invite (Call.__init__ CALL_TYPE pbx media)).1.1).1.1
  in
  Call.auth_sent c1 = false →
  Call._handle_unauthorized request c1
  = (Call.with_auth_sent true c1,
     [send_ack request;
      send_invite num (Call.data_port media) TransmitType.SENDRECV
        (Call.available_codecs media) (Some (body_o_id invite))
        (Some request)],
     Ok tt).
Proof.
  intros c1 Hflag.
  assert (offers num (Call.data_port media) TransmitType.SENDRECV
            (Call.available_codecs media) (body_o_id invite) c1)
    as (Hn & Hp & Hs & Ha & Hi).
  { apply (preserves_history
             (offers num (Call.data_port media) TransmitType.SENDRECV
                (Call.available_codecs media) (body_o_id invite)));
      try (intros; assumption); try (intros ? ? ?; assumption).
    by repeat split. }
  unfold Call._handle_unauthorized. rewrite bind_run. unfold get.
  rewrite Hflag. simpl. mrun. rewrite Hn, Hi, Hp, Hs, Ha. reflexivity.
Qed.

End AuthenticationOnce.

Lemma unauthorized_after_history_witness :
  let c1 :=
    (Phone.history 1
       [Phone.event Scenario.trying []; Phone.event Scenario.ok_invite []]
       (Call._handle_unauthorized Scenario.unauthorized
          Scenario.dialing).1.1).1.1 in
  Call._handle_unauthorized Scenario.unauthorized c1
  = (c1, [], Raise (RuntimeError Call.msg_401_twice)).
Proof.
  apply (unauthorized_after_history 1
           [Phone.event Scenario.trying []; Phone.event Scenario.ok_invite []]
           Scenario.unauthorized
           (Call._handle_unauthorized Scenario.unauthorized
              Scenario.dialing).1.1).
  reflexivity.
Defined.

Lemma unauthorized_resends_the_offer_witness :
  (Call._handle_unauthorized Scenario.unauthorized Scenario.ringing).1.2
  = [send_ack Scenario.unauthorized;
     send_invite "1000" 5004 TransmitType.SENDRECV ["PCMA"] (Some "4242")
       (Some Scenario.unauthorized)].
Proof.
  exact (f_equal (λ x, x.1.2)
           (unauthorized_resends_the_offer 1 "outgoing" "1000"
              {| Call.host := "pbx"; Call.port := 5060 |} Scenario.media
              Scenario.invite [Phone.event Scenario.trying []]
              Scenario.unauthorized eq_refl)).
Defined.

(** ** Waiting for a state *)

Lemma try_wait_returned {S A} (awaitable : S → result A) (check : A → bool)
    (polls : nat) (others : list (M S unit)) (msg : string) (s s' : S)
    (tr : list effect) (o : option A) :
  try_wait awaitable check polls others true msg s = (s', tr, Ok o) →
  ∃ a, o = Some a ∧ awaitable s' = Ok a ∧ check a = true.
Proof.
  revert others s tr. induction polls as [|n IH]; intros others s tr.
  - simpl. destruct (awaitable s) as [a|e] eqn:Ea; simpl.
    + destruct (check a) eqn:Ec; [|done].
      intros H. inversion H; subst. eauto.
    + done.
  - destruct (from_option check false
                (match awaitable s with Ok a => Some a | Raise _ => None end))
      eqn:E.
    + simpl. rewrite E. destruct (awaitable s) as [a|e] eqn:Ea; [|done].
      intros H. inversion H; subst. eauto.
    + rewrite try_wait_unsatisfied by exact E.
      destruct (default (mret ()) (head others) s) as [[s1 t1] r1].
      destruct (try_wait awaitable check n (tail others) true msg s1)
        as [[s2 t2] r2] eqn:E2.
      intros H. inversion H; subst. eapply IH. exact E2.
Qed.

Lemma try_wait_result {S A} (awaitable : S → result A) (check : A → bool)
    (polls : nat) (others : list (M S unit)) (raise_after_time : bool)
    (msg : string) (s : S) :
  (∃ o, (try_wait awaitable check polls others raise_after_time msg s).2 = Ok o)
  ∨ (raise_after_time = true
     ∧ (try_wait awaitable check polls others raise_after_time msg s).2
       = Raise (WaitTimeout msg)).
Proof.
  revert others s. induction polls as [|n IH]; intros others s.
  - simpl. destruct (from_option check false _); [left; eauto|].
    destruct raise_after_time; [right | left]; eauto.
  - destruct (from_option check false
                (match awaitable s with Ok a => Some a | Raise _ => None end))
      eqn:E.
    + simpl. rewrite E. left; eauto.
    + rewrite try_wait_unsatisfied by exact E.
      destruct (default (mret ()) (head others) s) as [[s1 t1] r1].
      specialize (IH (tail others) s1).
      destruct (try_wait awaitable check n (tail others) raise_after_time msg s1)
        as [[s2 t2] r2].
      exact IH.
Qed.

Lemma try_wait_alone_unsatisfied {S A} (awaitable : S → result A)
    (check : A → bool) (polls : nat) (msg : string) (s : S) :
  from_option check false
    (match awaitable s with Ok a => Some a | Raise _ => None end) = false →
  try_wait awaitable check polls [] true msg s
  = (s, repeat poll_interval polls, Raise (WaitTimeout msg)).
Proof.
  intros E. induction polls as [|n IH].
  - simpl. rewrite E. reflexivity.
  - rewrite try_wait_unsatisfied by exact E. simpl. rewrite IH. reflexivity.
Qed.

(** ** The operations of the caller *)

Section CallerOperations.

Variable polls_per_unit : nat.
Variable default_wait_time : Z.




(** X10.  The three operations on a call as the caller finds it.  Without a
    Call-ID they raise [KeyError] before they wait.  On an Answered call
    they delegate at once, without sleeping.  On a call that is not
    Answered, while nothing is delivered, they sleep every polling interval
    of the default wait and raise the timeout, and nothing is delegated:
    so on an Ended call. *)
Theorem media_operation_cases (arg : string) (c : Call.t) :
  let operations :=
    [(CallApi.send_audio polls_per_unit default_wait_time [] arg,
      media_send_audio arg);
     (CallApi.send_dtmf polls_per_unit default_wait_time [] arg,
      media_send_dtmf arg);
     (CallApi.listen polls_per_unit default_wait_time [] arg,
      media_listen arg)] in
  Forall (λ '(m, delegated),
            m c =
            match Call.call_id c with
            | None => (c, [], Raise (KeyError "call_id"))
            | Some _ =>
                if Call.state_is (Call.state c) CallState.ANSWERED
                then (c, [], Ok delegated)
                else (c,
                      repeat poll_interval
                        (Call.polls_in polls_per_unit default_wait_time),
                      Raise (WaitTimeout CallApi.msg_not_answered))
            end)
    operations.
Proof.
  intros operations. subst operations.
  assert (∀ delegated : media_call,
            (CallApi.__log;;
             CallApi._check_leg_A_answered polls_per_unit default_wait_time [];;
             mret delegated) c =
            match Call.call_id c with
            | None => (c, [], Raise (KeyError "call_id"))
            | Some _ =>
                if Call.state_is (Call.state c) CallState.ANSWERED
                then (c, [], Ok delegated)
                else (c,
                      repeat poll_interval
                        (Call.polls_in polls_per_unit default_wait_time),
                      Raise (WaitTimeout CallApi.msg_not_answered))
            end) as H.
  { intros delegated. rewrite bind_run. unfold CallApi.__log.
    rewrite bind_run. unfold get.
    destruct (Call.call_id c) as [id|]; simpl; [|done].
    rewrite bind_run. unfold CallApi._check_leg_A_answered. rewrite bind_run.
    destruct (Call.state_is (Call.state c) CallState.ANSWERED) eqn:E.
    - rewrite (try_wait_satisfied _ _ _ _ _ _ c true) by (by rewrite ?E).
      reflexivity.
    - rewrite try_wait_alone_unsatisfied by (simpl; by rewrite E).
      simpl. rewrite ?app_nil_r. reflexivity. }
  repeat constructor; apply H.
Qed.

(** X11.  [check_pbx_drop_call], whatever is delivered while it waits:
    asked not to raise, it never raises; asked to raise, it returns only
    with the reason [BYE_FROM_PBX], and what it raises otherwise is the
    timeout.  An unset reason counts as not yet dropped. *)
Theorem check_pbx_drop_call_outcome (others : list (M Call.t unit))
    (wait : Z) (raise_after_time : bool) (c : Call.t) :
  let run := CallApi.check_pbx_drop_call polls_per_unit others wait
               raise_after_time c in
  (raise_after_time = false → run.2 = Ok tt)
  ∧ (raise_after_time = true → run.2 = Ok tt →
     Call.stop_reason run.1.1 = Some CallStopReason.BYE_FROM_PBX)
  ∧ (run.2 = Ok tt ∨ run.2 = Raise (WaitTimeout CallApi.msg_no_drop)).
Proof.
  intros run. subst run. unfold CallApi.check_pbx_drop_call.
  rewrite bind_run.
  match goal with |- context [try_wait ?a ?b ?n ?o ?e ?f c] =>
    pose proof (try_wait_result a b n o e f c) as Hr;
    pose proof (try_wait_returned a b n o f c) as Hw;
    destruct (try_wait a b n o e f c) as [[c1 t1] r1] eqn:E
  end.
  simpl in Hr. split; [|split].
  - intros ->. destruct Hr as [[o ->] | [? _]]; done.
  - intros ->. destruct r1 as [o1|e1]; [|done]. intros _. simpl.
    destruct (Hw c1 t1 o1 E) as (a & _ & Ha & Hc).
    unfold CallApi.dropped_by_pbx in Ha.
    destruct (Call.stop_reason c1) as [r|]; [|done].
    inversion Ha; subst. unfold check_result_eq_true, id in Hc.
    destruct r; done.
  - destruct Hr as [[o ->] | [_ ->]]; [left | right]; done.
Qed.

(** X12.  After a BYE from the PBX has been handled, on whatever call,
    [check_pbx_drop_call] returns at once: it sleeps no interval and changes
    nothing. *)
Theorem check_pbx_drop_call_after_bye (others others' : list (M Call.t unit))
    (request : SIPMessage) (wait : Z) (raise_after_time : bool) (c : Call.t) :
  let c1 := (Call._handle_bye polls_per_unit others request c).1.1 in
  CallApi.check_pbx_drop_call polls_per_unit others' wait raise_after_time c1
  = (c1, [], Ok tt).
Proof.
  intros c1.
  assert (Call.stop_reason c1 = Some CallStopReason.BYE_FROM_PBX) as Hr.
  { subst c1. rewrite handle_bye_run.
    by destruct (Call.truthy_state _ && _). }
  unfold CallApi.check_pbx_drop_call. rewrite bind_run.
  rewrite (try_wait_satisfied _ _ _ _ _ _ c1 true).
  - reflexivity.
  - unfold CallApi.dropped_by_pbx. rewrite Hr. reflexivity.
  - reflexivity.
Qed.

End CallerOperations.


Lemma check_pbx_drop_call_outcome_witness :
  (CallApi.check_pbx_drop_call 1 [] 1 false Scenario.dialing).2 = Ok tt
  ∧ Call.stop_reason
      (CallApi.check_pbx_drop_call 1 [] 5 true
         (Call._handle_bye 1 [] Scenario.bye Scenario.answered).1.1).1.1
    = Some CallStopReason.BYE_FROM_PBX.
Proof.
  split.
  - apply (proj1 (check_pbx_drop_call_outcome 1 [] 1 false Scenario.dialing)).
    reflexivity.
  - apply (proj1 (proj2 (check_pbx_drop_call_outcome 1 [] 5 true
                           (Call._handle_bye 1 [] Scenario.bye
                              Scenario.answered).1.1))).
    + reflexivity.
    + reflexivity.
Defined.

(** ** The registry, and the calls in it *)




(** X14.  The first event for a call that [Phone.call] has just registered
    is routed to it at the first poll: the dispatcher sleeps no interval,
    whatever the caller's thread would do meanwhile. *)
Theorem callback_after_call (polls_per_unit : nat) (num : string)
    (media : Call.MediaWrapper) (invite : SIPMessage) (p : Phone.t)
    (registering : list (M Phone.t unit)) (others : list (M Call.t unit))
    (request : SIPMessage) :
  headers_Call_ID request = headers_Call_ID invite →
  let call_id := headers_Call_ID invite in
  let p1 := (Phone.call num media invite p).1.1 in
  let new_call :=
    (Call._new_call (Phone.dial_prefix p +:+ num) invite
       (Call.__init__ (Phone.CALL_TYPE p)
          {| Call.host := Phone.pbx_host p; Call.port := Phone.pbx_port p |}
          media)).1.1 in
  Phone._callback polls_per_unit registering others request p1
  = let '(c', tr, r) := Phone.route polls_per_unit others request new_call in
    (Phone.with_calls (<[call_id := c']> (Phone.calls p1)) p1, tr, r).
Proof.
  intros Hid call_id p1 new_call.
  assert (Phone.calls p1 !! call_id = Some new_call) as Hfound
    by apply lookup_insert_eq.
  unfold Phone._callback. rewrite bind_run, Hid. fold call_id.
  rewrite (try_wait_satisfied _ _ _ _ _ _ p1 new_call);
    [|unfold Phone.calls_getitem; by rewrite Hfound | done].
  unfold Phone.on_call. rewrite Hfound.
  by destruct (Phone.route polls_per_unit others request new_call)
    as [[c' tr] r].
Qed.

Lemma callback_after_call_witness :
  Phone._callback 1 [] [] Scenario.trying
    (Phone.call "1000" Scenario.media Scenario.invite Scenario.phone).1.1
  = (Phone.with_calls {["call-1" := Scenario.ringing]} Scenario.phone,
     [state_write None (Some CallState.TRYING)], Ok tt).
Proof.
  rewrite (callback_after_call 1 "1000" Scenario.media Scenario.invite
             Scenario.phone [] [] Scenario.trying eq_refl).
  reflexivity.
Defined.

Section Registry.

Variable polls_per_unit : nat.


(** X16.  [_callback] for a registered call touches that entry only: every
    other entry of [calls] is as it was, and the entry itself is still
    there. *)
Theorem callback_frame (registering : list (M Phone.t unit))
    (others : list (M Call.t unit)) (request : SIPMessage) (p : Phone.t)
    (c : Call.t) :
  Phone.calls p !! headers_Call_ID request = Some c →
  let p1 := (Phone._callback polls_per_unit registering others request p).1.1 in
  Phone.calls p1 !! headers_Call_ID request
  = Some (Phone.route polls_per_unit others request c).1.1
  ∧ ∀ other, other ≠ headers_Call_ID request →
      Phone.calls p1 !! other = Phone.calls p !! other.
Proof.
  intros Hfound p1. subst p1. unfold Phone._callback. rewrite bind_run.
  rewrite (try_wait_satisfied _ _ _ _ _ _ p c);
    [|unfold Phone.calls_getitem; by rewrite Hfound | done].
  unfold Phone.on_call. rewrite Hfound.
  destruct (Phone.route polls_per_unit others request c) as [[c' tr] r].
  simpl. split; [apply lookup_insert_eq|].
  intros other Hne. by apply lookup_insert_ne.
Qed.

End Registry.


Lemma callback_frame_witness :
  let p := Phone.with_calls {["call-1" := Scenario.dialing]} Scenario.phone in
  Phone.calls (Phone._callback 1 [] [] Scenario.trying p).1.1 !! "call-1"
  = Some Scenario.ringing.
Proof.
  intros p.
  apply (proj1 (callback_frame 1 [] [] Scenario.trying p Scenario.dialing
                  eq_refl)).
Defined.

(** ** Hanging up through the phone *)

Section HangUp.

Variable polls_per_unit : nat.

Lemma del_call_present (call_id : string) (p : Phone.t) (c : Call.t) :
  Phone.calls p !! call_id = Some c →
  Phone._del_call call_id p
  = (Phone.with_calls (delete call_id (Phone.calls p)) p,
     [calls_pop call_id], Ok tt).
Proof.
  intros H. unfold Phone._del_call. rewrite bind_run. unfold get.
  rewrite bind_run, H. reflexivity.
Qed.

Lemma stop_call_run (others : list (M Call.t unit)) (call_id : string)
    (p : Phone.t) :
  match Phone.calls p !! call_id with
  | None => Phone._stop_call polls_per_unit others call_id p = (p, [], Ok tt)
  | Some c =>
      match Call._hangup polls_per_unit others c with
      | (c', tr, Ok _) =>
          Phone._stop_call polls_per_unit others call_id p
          = (Phone.with_calls (delete call_id (Phone.calls p)) p,
             tr ++ [calls_pop call_id], Ok tt)
      | (c', tr, Raise e) =>
          Phone._stop_call polls_per_unit others call_id p
          = (Phone.with_calls (<[call_id := c']> (Phone.calls p)) p, tr,
             Raise e)
      end
  end.
Proof.
  unfold Phone._stop_call. rewrite bind_run. unfold get.
  destruct (Phone.calls p !! call_id) as [c|] eqn:Hfound; [|done].
  rewrite bind_run. unfold Phone.on_call. rewrite Hfound.
  destruct (Call._hangup polls_per_unit others c) as [[c' tr] [[]|e]]; [|done].
  rewrite (del_call_present call_id _ c') by apply lookup_insert_eq.
  simpl. by rewrite delete_insert_eq.
Qed.

(** X17.  [_stop_call] by the three cases of the source.  An unknown
    Call-ID: nothing happens.  A call whose [_hangup] returns: it is taken
    out of [calls], after the hang-up.  A call whose [_hangup] raises: the
    exception goes to the caller and the call stays in [calls], with what
    the hang-up wrote. *)
Theorem stop_call_cases (others : list (M Call.t unit)) (call_id : string)
    (p : Phone.t) :
  match Phone.calls p !! call_id with
  | None => Phone._stop_call polls_per_unit others call_id p = (p, [], Ok tt)
  | Some c =>
      match Call._hangup polls_per_unit others c with
      | (c', tr, Ok _) =>
          Phone._stop_call polls_per_unit others call_id p
          = (Phone.with_calls (delete call_id (Phone.calls p)) p,
             tr ++ [calls_pop call_id], Ok tt)
      | (c', tr, Raise e) =>
          Phone._stop_call polls_per_unit others call_id p
          = (Phone.with_calls (<[call_id := c']> (Phone.calls p)) p, tr,
             Raise e)
      end
  end.
Proof. apply stop_call_run. Qed.

(** X18.  [Phone.hangup] twice: when the first one returns, the second one
    returns too, sends nothing and changes nothing, whatever the call has
    become; and a call object without a Call-ID raises [KeyError]. *)
Theorem phone_hangup_twice (others1 others2 : list (M Call.t unit))
    (call : Call.t) (p p1 : Phone.t) (tr : list effect) :
  (Call.call_id call = None →
   Phone.hangup polls_per_unit others1 call p = (p, [], Raise (KeyError "call_id")))
  ∧ (Phone.hangup polls_per_unit others1 call p = (p1, tr, Ok tt) →
     Phone.hangup polls_per_unit others2 call p1 = (p1, [], Ok tt)).
Proof.
  unfold Phone.hangup. rewrite !bind_run.
  destruct (Call.call_id call) as [call_id|]; simpl; [|done].
  split; [done|].
  pose proof (stop_call_run others1 call_id p) as H1.
  destruct (Phone._stop_call polls_per_unit others1 call_id p)
    as [[p' tr'] r'].
  simpl. rewrite ?app_nil_r. intros Hrun. inversion Hrun; subst. clear Hrun.
  pose proof (stop_call_run others2 call_id p1) as H2.
  assert (Phone.calls p1 !! call_id = None) as Hgone.
  { destruct (Phone.calls p !! call_id) as [c|] eqn:Hfound.
    - destruct (Call._hangup polls_per_unit others1 c) as [[c' t'] [[]|e]];
        inversion H1; subst. simpl. apply lookup_delete_eq.
    - inversion H1; subst. exact Hfound. }
  rewrite Hgone in H2. rewrite H2. reflexivity.
Qed.


Lemma stop_calls_returned (others_of : string → list (M Call.t unit))
    (keys : list string) (p p1 : Phone.t) (tr : list effect) :
  PhoneSession.stop_calls polls_per_unit others_of keys p = (p1, tr, Ok tt) →
  (∀ id, id ∈ keys → Phone.calls p1 !! id = None)
  ∧ (∀ id, id ∉ keys → Phone.calls p1 !! id = Phone.calls p !! id).
Proof.
  revert p tr. induction keys as [|k ks IH]; intros p tr.
  - simpl. intros H. inversion H; subst. split; [|done].
    intros id Hin. by apply elem_of_nil in Hin.
  - simpl. rewrite bind_run.
    pose proof (stop_call_run (others_of k) k p) as Hk.
    destruct (Phone._stop_call polls_per_unit (others_of k) k p)
      as [[p' t'] [[]|e]]; [|done].
    destruct (PhoneSession.stop_calls polls_per_unit others_of ks p')
      as [[p2 t2] r2] eqn:E.
    intros H. inversion H; subst. clear H.
    destruct (IH p' t2 E) as [Hin Hout].
    assert (Phone.calls p' !! k = None
            ∧ ∀ id, id ≠ k → Phone.calls p' !! id = Phone.calls p !! id)
      as [Hgone Hrest].
    { destruct (Phone.calls p !! k) as [c|] eqn:Hfound.
      - destruct (Call._hangup polls_per_unit (others_of k) c)
          as [[c' tc] [[]|e]]; inversion Hk; subst. simpl.
        split; [apply lookup_delete_eq|].
        intros id Hne. by apply lookup_delete_ne.
      - inversion Hk; subst. done. }
    split.
    + intros id Hid. apply elem_of_cons in Hid as [-> | Hid]; [|by apply Hin].
      destruct (decide (k ∈ ks)); [by apply Hin|].
      by rewrite Hout.
    + intros id Hid. apply not_elem_of_cons in Hid as [Hne Hid].
      rewrite Hout by done. by apply Hrest.
Qed.

(** X19.  [Phone.stop], called with the keys of [calls].  When it returns,
    every call has been hung up and taken out, [calls] is empty, the status
    is [INACTIVE], and the last things done are the write of [DEREGISTER],
    [_sip.stop()] and the write of [INACTIVE].  When a hang-up raises, so
    does [stop]: the status is what it was, [_sip.stop()] is never reached
    and no status is written. *)
Theorem stop_outcome (others_of : string → list (M Call.t unit))
    (keys : list string) (self : PhoneSession.t) :
  (∀ id, is_Some (Phone.calls (PhoneSession.phone self) !! id) → id ∈ keys) →
  let run := PhoneSession.stop polls_per_unit others_of keys self in
  (run.2 = Ok tt →
   Phone.calls (PhoneSession.phone run.1.1) = ∅
   ∧ PhoneSession._status run.1.1 = Some PhoneStatus.INACTIVE
   ∧ ∃ tr, run.1.2
           = (PhoneSession.of_calls <$> tr)
             ++ [PhoneSession.status_write PhoneStatus.DEREGISTER;
                 PhoneSession.sip_stop;
                 PhoneSession.status_write PhoneStatus.INACTIVE])
  ∧ (run.2 ≠ Ok tt →
     PhoneSession._status run.1.1 = PhoneSession._status self
     ∧ ∃ tr, run.1.2 = PhoneSession.of_calls <$> tr).
Proof.
  intros Hkeys run. subst run. unfold PhoneSession.stop.
  destruct (decide (Phone.calls (PhoneSession.phone self) = ∅)) as [He|Hne].
  - simpl. split; [|done]. intros _. split; [exact He|]. split; [done|].
    by exists [].
  - destruct (PhoneSession.stop_calls polls_per_unit others_of keys
                (PhoneSession.phone self)) as [[p1 tr] [[]|e]] eqn:E; simpl.
    + split; [|done]. intros _.
      destruct (stop_calls_returned others_of keys _ p1 tr E) as [Hin Hout].
      split; [|split; [done | by exists tr]].
      apply map_empty. intros id.
      destruct (decide (id ∈ keys)) as [Hid|Hid]; [by apply Hin|].
      rewrite Hout by done.
      destruct (Phone.calls (PhoneSession.phone self) !! id) eqn:Hl; [|done].
      exfalso. apply Hid, Hkeys. by rewrite Hl.
    + split; [done|]. intros _. split; [done | by exists tr].
Qed.

End HangUp.

Lemma phone_hangup_twice_witness :
  let p := Phone.with_calls {["call-1" := Scenario.answered]} Scenario.phone in
  let answering := Phone.schedule 1 [[Scenario.ok_bye]] in
  Phone.hangup 1 [] Scenario.answered
    (Phone.hangup 1 answering Scenario.answered p).1.1
  = ((Phone.hangup 1 answering Scenario.answered p).1.1, [], Ok tt).
Proof.
  intros p answering.
  apply (proj2 (phone_hangup_twice 1 answering [] Scenario.answered p
                  (Phone.hangup 1 answering Scenario.answered p).1.1
                  (Phone.hangup 1 answering Scenario.answered p).1.2)).
  vm_compute. reflexivity.
Defined.

Lemma stop_outcome_witness :
  let idle :=
    {| PhoneSession.phone :=
         Phone.with_calls {["call-1" := Scenario.dialing]} Scenario.phone;
       PhoneSession._status := Some PhoneStatus.REGISTERED |} in
  let busy :=
    {| PhoneSession.phone :=
         Phone.with_calls {["call-1" := Scenario.answered]} Scenario.phone;
       PhoneSession._status := Some PhoneStatus.REGISTERED |} in
  Phone.calls
    (PhoneSession.phone
       (PhoneSession.stop 1 (λ _, []) ["call-1"] idle).1.1) = ∅
  ∧ PhoneSession._status (PhoneSession.stop 1 (λ _, []) ["call-1"] busy).1.1
    = Some PhoneStatus.REGISTERED.
Proof.
  intros idle busy.
  assert (∀ c id,
            is_Some (Phone.calls
                       (Phone.with_calls {["call-1" := c]} Scenario.phone)
                     !! id) → id ∈ ["call-1"]) as Hkeys.
  { intros c id [x Hx]. simpl in Hx.
    apply lookup_singleton_Some in Hx as [<- _]. set_solver. }
  split.
  - apply (proj1 (stop_outcome 1 (λ _, []) ["call-1"] idle
                    (Hkeys Scenario.dialing))).
    vm_compute. reflexivity.
  - apply (proj2 (stop_outcome 1 (λ _, []) ["call-1"] busy
                    (Hkeys Scenario.answered))).
    vm_compute. discriminate.
Defined.

(** ** A call from the invite to the hang-up *)

Lemma callback_found (polls_per_unit : nat)
    (registering : list (M Phone.t unit)) (others : list (M Call.t unit))
    (request : SIPMessage) (p : Phone.t) (c : Call.t) :
  Phone.calls p !! headers_Call_ID request = Some c →
  Phone._callback polls_per_unit registering others request p
  = let '(c', tr, r) := Phone.route polls_per_unit others request c in
    (Phone.with_calls (<[headers_Call_ID request := c']> (Phone.calls p)) p,
     tr, r).
Proof.
  intros Hfound. unfold Phone._callback. rewrite bind_run.
  rewrite (try_wait_satisfied _ _ _ _ _ _ p c);
    [|unfold Phone.calls_getitem; by rewrite Hfound | done].
  unfold Phone.on_call. rewrite Hfound.
  by destruct (Phone.route polls_per_unit others request c) as [[c' tr] r].
Qed.

(** X20.  A call from beginning to end.  The caller places a call; the PBX
    answers "trying", then with a success that has a media line; the caller
    hangs up, and the PBX answers the BYE during the first polling
    interval.  Every step returns, and what was done, in order: the invite,
    the entry in [calls], Trying, Answered, the media connected to the
    first port of the answer, the acknowledgment, one BYE, one interval
    slept, Ended written by the transport's thread, the media stopped, the
    entry taken out.  The other entries of [calls] are as they were. *)
Theorem call_from_invite_to_hangup (polls_per_unit : nat) (num : string)
    (media : Call.MediaWrapper) (invite trying ok ok_bye : SIPMessage)
    (remote_port : Z) (ports : list Z) (p : Phone.t) :
  (0 < polls_per_unit)%nat →
  msg_type trying = SIPMessageType.RESPONSE →
  status trying = SIPStatus.TRYING →
  headers_Call_ID trying = headers_Call_ID invite →
  msg_type ok = SIPMessageType.RESPONSE →
  status ok = SIPStatus.OK →
  headers_Call_ID ok = headers_Call_ID invite →
  body_m_port ok = remote_port :: ports →
  msg_type ok_bye = SIPMessageType.RESPONSE →
  status ok_bye = SIPStatus.OK →
  headers_CSeq_method ok_bye = "BYE" →
  let call_id := headers_Call_ID invite in
  let number := Phone.dial_prefix p +:+ num in
  let new_call :=
    (Call._new_call number invite
       (Call.__init__ (Phone.CALL_TYPE p)
          {| Call.host := Phone.pbx_host p; Call.port := Phone.pbx_port p |}
          media)).1.1 in
  (new_call ← Phone.call num media invite;
   Phone._callback polls_per_unit [] [] trying;;
   Phone._callback polls_per_unit [] [] ok;;
   Phone.hangup polls_per_unit (Phone.schedule polls_per_unit [[ok_bye]])
     new_call) p
  = (Phone.with_calls (delete call_id (Phone.calls p)) p,
     [send_invite number (Call.data_port media) TransmitType.SENDRECV
        (Call.available_codecs media) None None;
      calls_setitem call_id;
      state_write None (Some CallState.TRYING);
      state_write (Some CallState.TRYING) (Some CallState.ANSWERED);
      set_socket_connection (Phone.pbx_host p) remote_port;
      send_ack ok;
      send_bye invite;
      poll_interval;
      other_thread
        (state_write (Some CallState.ANSWERED) (Some CallState.ENDED));
      media_stop;
      calls_pop call_id],
     Ok tt).
Proof.
  intros Hpps Ht1 Ht2 Ht3 Ho1 Ho2 Ho3 Ho4 Hb1 Hb2 Hb3 call_id number new_call.
  rewrite bind_run.
  change (Phone.call num media invite p)
    with (Phone.with_calls (<[call_id := new_call]> (Phone.calls p)) p,
          [send_invite number (Call.data_port media) TransmitType.SENDRECV
             (Call.available_codecs media) None None;
           calls_setitem call_id],
          Ok (A := Call.t) new_call).
  cbv beta iota.
  (* trying *)
  rewrite bind_run.
  rewrite (callback_found _ _ _ trying _ new_call)
    by (rewrite Ht3; apply lookup_insert_eq).
  unfold Phone.route at 1. rewrite Ht1, Ht2, Ht3. simpl.
  rewrite insert_insert_eq.
  (* the answer *)
  rewrite bind_run.
  rewrite (callback_found _ _ _ ok _
             (Call.with_state (Some CallState.TRYING) new_call))
    by (rewrite Ho3; apply lookup_insert_eq).
  unfold Phone.route at 1. rewrite Ho1, Ho2, Ho3. simpl.
  unfold Call._handle_OK. rewrite bind_run. unfold get. simpl.
  mrun. rewrite Ho4. simpl. rewrite insert_insert_eq.
  (* the hang-up *)
  unfold Phone.hangup. rewrite bind_run. simpl.
  unfold Phone._stop_call. rewrite bind_run. unfold get. simpl.
  rewrite lookup_insert_eq. rewrite bind_run.
  unfold Phone.on_call. simpl. rewrite lookup_insert_eq.
  set (answered :=
         Call.with_state (Some CallState.ANSWERED)
           (Call.with_state (Some CallState.TRYING) new_call)).
  unfold Call._hangup. rewrite bind_run. unfold get. simpl.
  rewrite bind_run. unfold modify.
  rewrite (stop_local_run polls_per_unit _ _ CallStopReason.BYE_FROM_LOCAL
             invite) by (auto; done).
  unfold wait_for_ended, Call.polls_in.
  destruct (Z.to_nat 5 * polls_per_unit)%nat as [|n] eqn:En; [lia|].
  rewrite try_wait_unsatisfied by done.
  simpl.
  unfold attempt, Phone.route. rewrite Hb1, Hb2. simpl.
  unfold Call._handle_OK. rewrite !bind_run. unfold get. simpl.
  rewrite Hb3. simpl. mrun.
  rewrite try_wait_satisfied with (a := true) by done.
  simpl.
  unfold Phone._del_call. rewrite !bind_run. unfold get. simpl.
  rewrite lookup_insert_eq. simpl.
  rewrite insert_insert_eq, delete_insert_eq. reflexivity.
Qed.

Lemma call_from_invite_to_hangup_witness :
  (new_call ← Phone.call "1000" Scenario.media Scenario.invite;
   Phone._callback 1 [] [] Scenario.trying;;
   Phone._callback 1 [] [] Scenario.ok_invite;;
   Phone.hangup 1 (Phone.schedule 1 [[Scenario.ok_bye]]) new_call)
    Scenario.phone
  = (Phone.with_calls (delete "call-1" ∅) Scenario.phone,
     [send_invite "1000" 5004 TransmitType.SENDRECV ["PCMA"] None None;
      calls_setitem "call-1";
      state_write None (Some CallState.TRYING);
      state_write (Some CallState.TRYING) (Some CallState.ANSWERED);
      set_socket_connection "pbx" 30000;
      send_ack Scenario.ok_invite;
      send_bye Scenario.invite;
      poll_interval;
      other_thread
        (state_write (Some CallState.ANSWERED) (Some CallState.ENDED));
      media_stop;
      calls_pop "call-1"],
     Ok tt).
Proof.
  apply (call_from_invite_to_hangup 1 "1000" Scenario.media Scenario.invite
           Scenario.trying Scenario.ok_invite Scenario.ok_bye 30000 []
           Scenario.phone); try reflexivity.
  lia.
Defined.

(** ** The socket *)



(** ** More on teardown *)

Section TeardownAgain.

Variable polls_per_unit : nat.


(** X23.  What [_hangup] leaves when it returns, whatever was delivered
    while it waited: either the call was Ended already and nothing was
    done; or the state is unset, nothing was sent and the reason is
    [BYE_FROM_LOCAL]; or the state is Ended, the reason is
    [BYE_FROM_LOCAL], and this thread has sent one BYE and stopped the
    media once. *)
Theorem hangup_returned (others : list (M Call.t unit)) (c c' : Call.t)
    (tr : list effect) :
  Call._hangup polls_per_unit others c = (c', tr, Ok tt) →
  (Call.state c = Some CallState.ENDED ∧ c' = c ∧ tr = [])
  ∨ (Call.state c' = None ∧ tr = []
     ∧ Call.stop_reason c' = Some CallStopReason.BYE_FROM_LOCAL)
  ∨ (Call.state c' = Some CallState.ENDED
     ∧ Call.stop_reason c' = Some CallStopReason.BYE_FROM_LOCAL
     ∧ count is_send_bye (own tr) = 1%nat
     ∧ count is_media_stop (own tr) = 1%nat).
Proof.
  intros H.
  destruct (Call.state c) as [st|] eqn:Hst.
  2:{ rewrite hangup_unset in H by done. inversion H; subst.
      right; left. done. }
  destruct st.
  5:{ rewrite hangup_ended in H by done. inversion H; subst. by left. }
  all: unfold Call._hangup in H; rewrite bind_run in H; unfold get in H;
    rewrite Hst in H; simpl in H; rewrite bind_run in H; unfold modify in H;
    set (c0 := Call.with_stop_reason (Some CallStopReason.BYE_FROM_LOCAL) c)
      in *.
  1,2: rewrite (stop_unknown_caller polls_per_unit others c0
                  CallStopReason.BYE_FROM_LOCAL)
      in H by (subst c0; simpl; auto); done.
  all: destruct (Call.invite_request c) as [invite|] eqn:Hinv.
  1,3: rewrite (stop_local_run polls_per_unit others c0
                  CallStopReason.BYE_FROM_LOCAL invite)
      in H by (subst c0; simpl; auto);
    destruct (wait_for_ended_outcome (Call.polls_in polls_per_unit 5)
                others c0)
      as (c1 & t1 & k & Hown & _ & [[E Hend] | (E & _)]);
    rewrite E in H; [|done];
    destruct (Call.reason_is (Call.stop_reason c1)
                CallStopReason.BYE_FROM_LOCAL) eqn:Hr;
    inversion H; subst;
    right; right; (split; [exact Hend|]);
    (split; [by destruct (Call.stop_reason c') as [[]|]|]);
    simpl; rewrite own_app, Hown;
    rewrite !count_cons, !count_app, !count_poll_intervals by done; done.
  all: unfold Call._stop in H; rewrite bind_run in H; unfold get in H;
    replace (Call.state c0) with (Call.state c) in H by done;
    rewrite Hst in H; simpl in H; rewrite bind_run in H; simpl in H;
    rewrite bind_run in H; simpl in H; rewrite Hinv in H; simpl in H; done.
Qed.

(** X24.  A BYE from the PBX that arrives while [_hangup] waits, during its
    first polling interval, on a Trying or Answered call: the transport's
    thread answers OK, stops the media and writes Ended; then [_hangup]
    stops the media a second time and raises, because the reason is now
    [BYE_FROM_PBX].  The call is Ended all the same. *)
Theorem bye_during_hangup (bye : SIPMessage) (c : Call.t)
    (invite : SIPMessage) :
  (0 < polls_per_unit)%nat →
  msg_type bye = SIPMessageType.MESSAGE → method bye = "BYE" →
  Call.state c = Some CallState.TRYING ∨ Call.state c = Some CallState.ANSWERED →
  Call.invite_request c = Some invite →
  Call.bye_recv_delay c = None →
  Call._hangup polls_per_unit (Phone.schedule polls_per_unit [[bye]]) c
  = (Call.with_state (Some CallState.ENDED)
       (Call.with_stop_reason (Some CallStopReason.BYE_FROM_PBX) c),
     [send_bye invite; poll_interval;
      other_thread (send_ok bye); other_thread media_stop;
      other_thread (state_write (Call.state c) (Some CallState.ENDED));
      media_stop],
     Raise (Exception Call.msg_stop_reason)).
Proof.
  intros Hpps Hb1 Hb2 Hst Hinv Hd.
  unfold Call._hangup. rewrite bind_run. unfold get.
  assert (negb (Call.state_is (Call.state c) CallState.ENDED) = true) as ->
    by (destruct Hst as [-> | ->]; done).
  rewrite bind_run. unfold modify.
  rewrite (stop_local_run polls_per_unit _ _ CallStopReason.BYE_FROM_LOCAL
             invite) by done.
  unfold wait_for_ended, Call.polls_in.
  destruct (Z.to_nat 5 * polls_per_unit)%nat as [|n] eqn:En; [lia|].
  rewrite try_wait_unsatisfied
    by (simpl; destruct Hst as [-> | ->]; done).
  assert (Phone.route polls_per_unit [] bye
          = Call._handle_bye polls_per_unit [] bye) as Hroute
    by (unfold Phone.route; rewrite Hb1, Hb2; reflexivity).
  simpl. unfold attempt. rewrite bind_run. cbv beta.
  rewrite Hroute, handle_bye_run. simpl. rewrite Hd.
  assert (Call.truthy_state (Call.state c)
          && negb (Call.state_is (Call.state c) CallState.ENDED) = true)
    as -> by (destruct Hst as [-> | ->]; done).
  simpl.
  rewrite try_wait_satisfied with (a := true) by done.
  reflexivity.
Qed.

End TeardownAgain.


Lemma hangup_returned_witness :
  let run := Call._hangup 1 (Phone.schedule 1 [[Scenario.ok_bye]])
               Scenario.answered in
  Call.state run.1.1 = Some CallState.ENDED
  ∧ Call.stop_reason run.1.1 = Some CallStopReason.BYE_FROM_LOCAL.
Proof.
  intros run.
  destruct (hangup_returned 1 (Phone.schedule 1 [[Scenario.ok_bye]])
              Scenario.answered run.1.1 run.1.2)
    as [(H & _) | [(H & _) | (H1 & H2 & _)]].
  - vm_compute. reflexivity.
  - discriminate H.
  - vm_compute in H. discriminate H.
  - split; [exact H1 | exact H2].
Defined.

Lemma bye_during_hangup_witness :
  Call._hangup 1 (Phone.schedule 1 [[Scenario.bye]]) Scenario.answered
  = (Call.with_state (Some CallState.ENDED)
       (Call.with_stop_reason (Some CallStopReason.BYE_FROM_PBX)
          Scenario.answered),
     [send_bye Scenario.invite; poll_interval;
      other_thread (send_ok Scenario.bye); other_thread media_stop;
      other_thread
        (state_write (Some CallState.ANSWERED) (Some CallState.ENDED));
      media_stop],
     Raise (Exception Call.msg_stop_reason)).
Proof.
  apply (bye_during_hangup 1 Scenario.bye Scenario.answered Scenario.invite);
    try reflexivity.
  - lia.
  - right. reflexivity.
Defined.

(** ** The keys of the registry *)

Section Keys.

Variable polls_per_unit : nat.

Lemma route_keeps_call_id (others : list (M Call.t unit))
    (request : SIPMessage) (c : Call.t) :
  Forall keeps_placement others →
  Call.call_id (Phone.route polls_per_unit others request c).1.1
  = Call.call_id c.
Proof. intros Ho. apply (keeps_route polls_per_unit others request Ho c). Qed.

(** X25.  The entries of [calls] stay under the Call-IDs of their calls:
    [Phone.call], [_callback] (the caller's thread doing nothing during the
    lookup) and [_stop_call] keep this, whether they return or raise, with
    events delivered while a handler or the hang-up waits. *)
Theorem registry_consistent (num : string) (media : Call.MediaWrapper)
    (invite request : SIPMessage) (during : list (list SIPMessage))
    (call_id : string) (p : Phone.t) :
  consistent p →
  consistent (Phone.call num media invite p).1.1
  ∧ consistent
      (Phone._callback polls_per_unit []
         (Phone.schedule polls_per_unit during) request p).1.1
  ∧ consistent
      (Phone._stop_call polls_per_unit
         (Phone.schedule polls_per_unit during) call_id p).1.1.
Proof.
  intros Hp. split; [|split].
  - assert (Phone.calls (Phone.call num media invite p).1.1
            = <[headers_Call_ID invite :=
                  (Call._new_call (Phone.dial_prefix p +:+ num) invite
                     (Call.__init__ (Phone.CALL_TYPE p)
                        {| Call.host := Phone.pbx_host p;
                           Call.port := Phone.pbx_port p |} media)).1.1]>
                (Phone.calls p)) as E by reflexivity.
    intros k c. rewrite E. intros H.
    apply lookup_insert_Some in H as [[<- <-] | [_ H]]; [done | by apply Hp].
  - unfold Phone._callback. rewrite bind_run.
    match goal with |- context [try_wait ?a ?b ?n ?o ?e ?f p] =>
      pose proof (try_wait_alone a b n e f p) as Hsame;
      pose proof (try_wait_returned a b n o f p) as Hw;
      destruct (try_wait a b n o e f p) as [[p1 t1] [o1|e1]]
    end; simpl in Hsame; subst p1; [|done].
    destruct (Hw p t1 o1 eq_refl) as (c & -> & Hc & _).
    unfold Phone.calls_getitem in Hc.
    destruct (Phone.calls p !! headers_Call_ID request) as [c0|] eqn:Hfound;
      [|done].
    inversion Hc; subst c0. unfold Phone.on_call. rewrite Hfound.
    pose proof (route_keeps_call_id (Phone.schedule polls_per_unit during)
                  request c (keeps_schedule polls_per_unit during)) as Hid.
    destruct (Phone.route polls_per_unit (Phone.schedule polls_per_unit during)
                request c) as [[c' tr] r].
    simpl in *. intros k x H. simpl in H.
    apply lookup_insert_Some in H as [[<- <-] | [_ H]]; [|by apply Hp].
    rewrite Hid. by apply Hp.
  - pose proof (stop_call_run polls_per_unit
                  (Phone.schedule polls_per_unit during) call_id p) as H.
    destruct (Phone.calls p !! call_id) as [c|] eqn:Hfound.
    + pose proof (keeps_hangup polls_per_unit
                    (Phone.schedule polls_per_unit during)
                    (keeps_schedule polls_per_unit during) c)
        as (_ & _ & _ & Hid).
      destruct (Call._hangup polls_per_unit
                  (Phone.schedule polls_per_unit during) c)
        as [[c' tr] [[]|e]]; rewrite H; simpl in *.
      * intros k x Hx. simpl in Hx. apply lookup_delete_Some in Hx as [_ Hx].
        by apply Hp.
      * intros k x Hx. simpl in Hx.
        apply lookup_insert_Some in Hx as [[<- <-] | [_ Hx]]; [|by apply Hp].
        rewrite Hid. by apply Hp.
    + rewrite H. exact Hp.
Qed.

End Keys.

Lemma registry_consistent_witness :
  consistent (Phone.call "1000" Scenario.media Scenario.invite Scenario.phone).1.1.
Proof.
  apply (registry_consistent 1 "1000" Scenario.media Scenario.invite
           Scenario.trying [] "call-1" Scenario.phone).
  intros k c H. simpl in H. by rewrite lookup_empty in H.
Defined.
